(** * A linked-list stack in C: memory model, operations and their properties

    The development embeds [stack_linked_list/source.c].  The C code works on
    [malloc]ed blocks through pointers, so the embedding threads an explicit
    heap through every operation; dereferencing a pointer that does not
    designate a live block of the right shape is undefined behaviour and is
    kept apart from ordinary results.  Objects of the caller that [malloc]
    did not return are told apart from allocated storage, since [free] is
    undefined on them. *)

From Stdlib Require Import ZArith Lia.
From Stdlib.Strings Require Import Byte.
From stdpp Require Import gmap list.

Local Open Scope Z_scope.

(** ** Machine integers and pointers *)

(** [size_t] is taken to be 64 bits wide (LP64), as are pointers. *)
Definition SIZE_MAX : Z := 18446744073709551615.

Definition size_wrap (z : Z) : Z := z mod (SIZE_MAX + 1).

Abbreviation ptr := Z (only parsing).
Definition NULL : ptr := 0.

(** [sizeof(struct Stack)] and [sizeof(struct StackNode)] on LP64. *)
Definition STACK_SIZE : Z := 24.
Definition STACK_NODE_SIZE : Z := 16.

(** ** The two structs *)

Module StackNode.
Record t : Type := mk { data : ptr; next : ptr }.
End StackNode.

Module Stack.
Record t : Type := mk { size : Z; data_size : Z; head : ptr }.
End Stack.

(** ** Memory *)

(** A byte of memory is either initialised or indeterminate ([None]), which
    is what [malloc] hands out. *)
Definition mbyte : Type := option byte.

(** A live block.  Storage obtained from [malloc] has no type of its own; it
    becomes a node or a stack record with the first store through an lvalue
    of that type.  [BAuto] is an object the caller did not obtain from
    [malloc], such as the local [Item a] of [main], seen as its bytes. *)
Inductive block : Type :=
| BBytes (bs : list mbyte)
| BNode (n : StackNode.t)
| BStack (s : Stack.t)
| BAuto (bs : list mbyte).

(** Whether a block is storage that [malloc] returned. *)
Definition allocated (b : block) : bool :=
  match b with
  | BAuto _ => false
  | _ => true
  end.

(** The heap maps the address of every live block to its contents.  The
    allocator is not part of the program: [oracle] lists the answers it will
    give to the coming [malloc] calls, [None] for a refusal and [Some a] for
    the address it picks. *)
Record mem : Type := mkmem { blocks : gmap Z block; oracle : list (option Z) }.

(** What running a piece of C yields: a value and a new memory, undefined
    behaviour, or an exhausted loop budget. *)
Inductive outcome (A : Type) : Type :=
| Ok (a : A) (m : mem)
| UB
| Fuel.
Arguments Ok {A} a m.
Arguments UB {A}.
Arguments Fuel {A}.

Definition M (A : Type) : Type := mem -> outcome A.

Definition ret {A} (a : A) : M A := fun m => Ok a m.

Definition bind {A B} (c : M A) (k : A -> M B) : M B :=
  fun m => match c m with
           | Ok a m' => k a m'
           | UB => UB
           | Fuel => Fuel
           end.

Notation "x <- c ;; k" := (bind c (fun x => k))
  (at level 100, c at next level, right associativity).
Notation "c ;;; k" := (bind c (fun _ => k))
  (at level 100, right associativity).

Definition valid_addr (a : Z) : bool := (0 <? a) && (a <=? SIZE_MAX).

(** [malloc n]: the allocator's next answer decides.  An answer that is not
    a free address of the address space counts as a refusal. *)
Definition malloc (n : Z) : M ptr := fun m =>
  match oracle m with
  | [] => Ok NULL m
  | None :: rest => Ok NULL (mkmem (blocks m) rest)
  | Some a :: rest =>
      match blocks m !! a with
      | None =>
          if valid_addr a
          then Ok a (mkmem (<[a := BBytes (replicate (Z.to_nat n) None)]> (blocks m)) rest)
          else Ok NULL (mkmem (blocks m) rest)
      | Some _ => Ok NULL (mkmem (blocks m) rest)
      end
  end.

(** [free p]: nothing for a null pointer, the block disappears for a live
    one that [malloc] returned, undefined otherwise: for a pointer to no
    live block and for a pointer to storage that was not allocated. *)
Definition free (p : ptr) : M unit := fun m =>
  if p =? NULL then Ok tt m
  else match blocks m !! p with
       | Some b =>
           if allocated b then Ok tt (mkmem (delete p (blocks m)) (oracle m))
           else UB
       | None => UB
       end.

(** The bytes at [p], when [p] designates an object made of bytes,
    allocated or not. *)
Definition bytes_at (h : gmap Z block) (p : ptr) : option (list mbyte) :=
  match h !! p with
  | Some (BBytes bs) => Some bs
  | Some (BAuto bs) => Some bs
  | _ => None
  end.

(** [memcpy dst src n] between two objects made of bytes that both hold
    [n] bytes. *)
Definition memcpy (dst src : ptr) (n : Z) : M unit := fun m =>
  match bytes_at (blocks m) src, blocks m !! dst with
  | Some s, Some (BBytes d) =>
      if (n <=? Z.of_nat (length s)) && (n <=? Z.of_nat (length d))
      then Ok tt (mkmem (<[dst := BBytes (take (Z.to_nat n) s ++ drop (Z.to_nat n) d)]> (blocks m))
                        (oracle m))
      else UB
  | Some s, Some (BAuto d) =>
      if (n <=? Z.of_nat (length s)) && (n <=? Z.of_nat (length d))
      then Ok tt (mkmem (<[dst := BAuto (take (Z.to_nat n) s ++ drop (Z.to_nat n) d)]> (blocks m))
                        (oracle m))
      else UB
  | _, _ => UB
  end.

Definition load_stack (p : ptr) : M Stack.t := fun m =>
  match blocks m !! p with
  | Some (BStack s) => Ok s m
  | _ => UB
  end.

Definition load_node (p : ptr) : M StackNode.t := fun m =>
  match blocks m !! p with
  | Some (BNode n) => Ok n m
  | _ => UB
  end.

(** Storing a whole struct: into a block that already is one, or into raw
    storage of exactly its size. *)
Definition store_stack (p : ptr) (s : Stack.t) : M unit := fun m =>
  match blocks m !! p with
  | Some (BStack _) => Ok tt (mkmem (<[p := BStack s]> (blocks m)) (oracle m))
  | Some (BBytes bs) =>
      if Z.of_nat (length bs) =? STACK_SIZE
      then Ok tt (mkmem (<[p := BStack s]> (blocks m)) (oracle m))
      else UB
  | _ => UB
  end.

Definition store_node (p : ptr) (n : StackNode.t) : M unit := fun m =>
  match blocks m !! p with
  | Some (BNode _) => Ok tt (mkmem (<[p := BNode n]> (blocks m)) (oracle m))
  | Some (BBytes bs) =>
      if Z.of_nat (length bs) =? STACK_NODE_SIZE
      then Ok tt (mkmem (<[p := BNode n]> (blocks m)) (oracle m))
      else UB
  | _ => UB
  end.

(** Stores to single fields of [struct Stack]; [data_size] is [const] and
    has no store. *)
Definition set_head (stack : ptr) (v : ptr) : M unit :=
  s <- load_stack stack ;;
  store_stack stack (Stack.mk (Stack.size s) (Stack.data_size s) v).

Definition set_size (stack : ptr) (v : Z) : M unit :=
  s <- load_stack stack ;;
  store_stack stack (Stack.mk v (Stack.data_size s) (Stack.head s)).

(** [node->data = v] on an initialised node. *)
Definition set_data (node : ptr) (v : ptr) : M unit :=
  n <- load_node node ;;
  store_node node (StackNode.mk v (StackNode.next n)).

(** ** The operations of the stack *)

(** [return !stack || !stack->head;] *)
Definition stack_is_empty (stack : ptr) : M bool :=
  if stack =? NULL then ret true
  else s <- load_stack stack ;; ret (Stack.head s =? NULL).

Definition stack_size (stack : ptr) : M Z :=
  e <- stack_is_empty stack ;;
  if negb e then s <- load_stack stack ;; ret (Stack.size s)
  else ret 0.

(** The two stores [temp->next = stack->head; temp->data = malloc(...)] into
    the fresh node are one [store_node]: nothing reads the node between
    them.  The result of the second [malloc] is not tested. *)
Definition stack_allocate (stack : ptr) : M bool :=
  temp <- malloc STACK_NODE_SIZE ;;
  if temp =? NULL then ret false
  else
    s <- load_stack stack ;;
    d <- malloc (Stack.data_size s) ;;
    store_node temp (StackNode.mk d (Stack.head s)) ;;;
    set_head stack temp ;;;
    ret true.

Definition stack_initialise (data_size : Z) : M ptr :=
  let init := Stack.mk 0 data_size NULL in
  stack <- malloc STACK_SIZE ;;
  if stack =? NULL then ret NULL
  else store_stack stack init ;;; ret stack.

Definition stack_emplace (stack : ptr) (data : ptr) : M bool :=
  if data =? NULL then ret false
  else
    ok <- stack_allocate stack ;;
    if negb ok then ret false
    else
      s <- load_stack stack ;;
      set_data (Stack.head s) data ;;;
      s <- load_stack stack ;;
      set_size stack (size_wrap (Stack.size s + 1)) ;;;
      ret true.

Definition stack_push (stack : ptr) (data : ptr) : M bool :=
  if data =? NULL then ret false
  else
    ok <- stack_allocate stack ;;
    if negb ok then ret false
    else
      s <- load_stack stack ;;
      n <- load_node (Stack.head s) ;;
      memcpy (StackNode.data n) data (Stack.data_size s) ;;;
      s <- load_stack stack ;;
      set_size stack (size_wrap (Stack.size s + 1)) ;;;
      ret true.

Definition stack_pop (stack : ptr) : M bool :=
  e <- stack_is_empty stack ;;
  if e then ret false
  else
    s <- load_stack stack ;;
    let temp := Stack.head s in
    n <- load_node temp ;;
    set_head stack (StackNode.next n) ;;;
    n <- load_node temp ;;
    free (StackNode.data n) ;;;
    free temp ;;;
    s <- load_stack stack ;;
    set_size stack (size_wrap (Stack.size s - 1)) ;;;
    ret true.

Definition stack_peek (stack : ptr) : M ptr :=
  e <- stack_is_empty stack ;;
  if e then ret NULL
  else
    s <- load_stack stack ;;
    n <- load_node (Stack.head s) ;;
    ret (StackNode.data n).

(** One turn of the [while] loop of [stack_destroy]; the local [next] is
    handed on explicitly. *)
Definition destroy_body (stack : ptr) : M unit :=
  p <- stack_peek stack ;;
  free p ;;;
  s <- load_stack stack ;;
  n <- load_node (Stack.head s) ;;
  let next := StackNode.next n in
  s <- load_stack stack ;;
  n <- load_node (Stack.head s) ;;
  set_head stack (StackNode.next n) ;;;
  free next ;;;
  s <- load_stack stack ;;
  set_size stack (size_wrap (Stack.size s - 1)).

Fixpoint destroy_loop (fuel : nat) (stack : ptr) : M unit :=
  match fuel with
  | O => fun _ => Fuel
  | S fuel' =>
      e <- stack_is_empty stack ;;
      if negb e then destroy_body stack ;;; destroy_loop fuel' stack
      else ret tt
  end.

(** Every turn of the loop that reaches the next test has freed a block, so
    one turn per live block, and one more for the final test, is enough. *)
Definition stack_destroy (stack : ptr) : M unit := fun m =>
  destroy_loop (S (S (size (blocks m)))) stack m.

(** ** Clients used to state the properties *)

(** What the test program does with the result of [stack_peek]: it reads the
    element the pointer designates.  [None] stands for the null pointer. *)
Definition peek_value (stack : ptr) : M (option (list mbyte)) :=
  p <- stack_peek stack ;;
  if p =? NULL then ret None
  else fun m => match bytes_at (blocks m) p with
                | Some bs => Ok (Some bs) m
                | None => UB
                end.

Inductive op : Type :=
| Push (data : ptr)
| Pop.

(** Runs a script of pushes and pops; the result tells whether every push
    reported success. *)
Fixpoint run (stack : ptr) (ops : list op) : M bool :=
  match ops with
  | [] => ret true
  | Push d :: ops' =>
      b <- stack_push stack d ;;
      if b then run stack ops' else ret false
  | Pop :: ops' => stack_pop stack ;;; run stack ops'
  end.

(** [n] rounds of peek-then-pop, collecting what was read. *)
Fixpoint drain (stack : ptr) (n : nat) : M (list (option (list mbyte))) :=
  match n with
  | O => ret []
  | S n' =>
      v <- peek_value stack ;;
      stack_pop stack ;;;
      vs <- drain stack n' ;;
      ret (v :: vs)
  end.

Fixpoint count_push (ops : list op) : Z :=
  match ops with
  | [] => 0
  | Push _ :: ops' => 1 + count_push ops'
  | Pop :: ops' => count_push ops'
  end.

Fixpoint count_pop (ops : list op) : Z :=
  match ops with
  | [] => 0
  | Push _ :: ops' => count_pop ops'
  | Pop :: ops' => 1 + count_pop ops'
  end.

(** No pop comes before the push it undoes: starting with [depth] elements,
    the script never pops an empty stack. *)
Fixpoint balanced (depth : nat) (ops : list op) : bool :=
  match ops with
  | [] => true
  | Push _ :: ops' => balanced (S depth) ops'
  | Pop :: ops' =>
      match depth with
      | O => false
      | S depth' => balanced depth' ops'
      end
  end.

(** Any call that changes a stack, and any sequence of such calls. *)
Inductive call : Type :=
| CallPush (data : ptr)
| CallEmplace (data : ptr)
| CallPop
| CallDestroy.

Definition perform (stack : ptr) (c : call) : M unit :=
  match c with
  | CallPush d => stack_push stack d ;;; ret tt
  | CallEmplace d => stack_emplace stack d ;;; ret tt
  | CallPop => stack_pop stack ;;; ret tt
  | CallDestroy => stack_destroy stack
  end.

Fixpoint perform_all (stack : ptr) (cs : list call) : M unit :=
  match cs with
  | [] => ret tt
  | c :: cs' => perform stack c ;;; perform_all stack cs'
  end.

(** ** The memory of the test program *)

(** The [int]s 500 and 1000 as four little-endian bytes. *)
Definition int_500 : list mbyte := [Some xf4; Some x01; Some x00; Some x00].
Definition int_1000 : list mbyte := [Some xe8; Some x03; Some x00; Some x00].

(** What the caller owns before it creates the stack: at 100 and 101 the two
    local [Item a] of [main], at 102 and 103 two [Item]s it has [malloc]ed
    earlier. *)
Definition caller_heap : gmap Z block :=
  <[100 := BAuto int_500]>
    (<[101 := BAuto int_1000]>
       (<[102 := BBytes int_500]> (<[103 := BBytes int_1000]> ∅))).

Definition caller_mem (answers : list (option Z)) : mem := mkmem caller_heap answers.

(** The memory a computation leaves. *)
Definition after {A} (c : M A) (m : mem) : mem :=
  match c m with
  | Ok _ m' => m'
  | _ => m
  end.

Definition value_of {A} (o : outcome A) : option A :=
  match o with
  | Ok a _ => Some a
  | _ => None
  end.

(** A stack of [int]s at address 1; [answers] is what the allocator will
    say from then on. *)
Definition fresh_stack (answers : list (option Z)) : mem :=
  after (stack_initialise 4) (caller_mem (Some 1 :: answers)).

(** The stack after [main]'s first push, and after its second one. *)
Definition one_element : mem :=
  after (stack_push 1 100) (fresh_stack [Some 2; Some 3; Some 4; Some 5]).

Definition two_elements : mem :=
  after (run 1 [Push 100; Push 101]) (fresh_stack [Some 2; Some 3; Some 4; Some 5]).

(** Two stacks in one heap: the one of [int]s at address 1 and a second
    one, of 8-byte elements, at address 2. *)
Definition two_stacks : mem :=
  after (stack_initialise 8) (fresh_stack [Some 2; Some 3; Some 4; Some 5; Some 6]).


(** A stack of one element on which the head node itself, at address 2,
    was emplaced and then popped. *)
Definition dangling_head : mem :=
  after (stack_pop 1) (after (stack_emplace 1 2) one_element).


(** [sizeof(Item)], and the store [*a = v] of a whole [Item]. *)
Definition ITEM_SIZE : Z := 4.

Definition store_item (a : ptr) (v : list mbyte) : M unit := fun m =>
  match blocks m !! a with
  | Some (BBytes old) =>
      if (Z.of_nat (length old) =? ITEM_SIZE) && (Z.of_nat (length v) =? ITEM_SIZE)
      then Ok tt (mkmem (<[a := BBytes v]> (blocks m)) (oracle m))
      else UB
  | Some (BAuto old) =>
      if (Z.of_nat (length old) =? ITEM_SIZE) && (Z.of_nat (length v) =? ITEM_SIZE)
      then Ok tt (mkmem (<[a := BAuto v]> (blocks m)) (oracle m))
      else UB
  | _ => UB
  end.

(** The dereference [*(Item * )p] the test program applies to what
    [stack_peek] returns. *)
Definition read_item (p : ptr) : M (list mbyte) := fun m =>
  match bytes_at (blocks m) p with
  | Some bs =>
      if ITEM_SIZE <=? Z.of_nat (length bs)
      then Ok (take (Z.to_nat ITEM_SIZE) bs) m
      else UB
  | None => UB
  end.

(** The macro [stack_print] of the test program.  Both branches read
    [stack->data_size] and [stack->size] from the record; the first one
    also reads the top element.  The result is what gets printed. *)
Definition stack_print (stack : ptr) : M (Z * Z * option (list mbyte)) :=
  n <- stack_size stack ;;
  if negb (n =? 0) then
    s <- load_stack stack ;;
    p <- stack_peek stack ;;
    v <- read_item p ;;
    ret (Stack.data_size s, Stack.size s, Some v)
  else
    s <- load_stack stack ;;
    ret (Stack.data_size s, Stack.size s, None).

(** [main].  Its result is what it shows: the outcome of the two checks at
    the start (true for the success message) and the five [stack_print]. *)
Definition main_body : M (bool * bool * list (Z * Z * option (list mbyte))) :=
  stack <- stack_initialise ITEM_SIZE ;;
  e <- stack_is_empty stack ;;
  n <- stack_size stack ;;
  stack_push stack 100 ;;;
  stack_push stack 101 ;;;
  p1 <- stack_print stack ;;
  stack_pop stack ;;;
  p2 <- stack_print stack ;;
  stack_pop stack ;;;
  p3 <- stack_print stack ;;
  a <- malloc ITEM_SIZE ;;
  store_item a int_500 ;;;
  stack_emplace stack a ;;;
  p4 <- stack_print stack ;;
  stack_pop stack ;;;
  p5 <- stack_print stack ;;
  free stack ;;;
  ret (e, n =? 0, [p1; p2; p3; p4; p5]).

(** ** Invariants *)

(** Every live block sits at a non-null address of the address space. *)
Definition heap_ok (h : gmap Z block) : Prop :=
  map_Forall (fun a _ => 0 < a <= SIZE_MAX) h.

(** A computation that never runs out of loop budget. *)
Definition bounded {A} (c : M A) : Prop := forall m, c m <> Fuel.

(** [free] seen as a heap transformer. *)
Definition release (p : ptr) (h : gmap Z block) : gmap Z block :=
  if p =? NULL then h else delete p h.

(** One stored element, as the heap holds it: the address of its node, the
    address of its payload and the payload's bytes. *)
Definition item : Type := Z * Z * list mbyte.

Definition node_of (x : item) : ptr := x.1.1.
Definition payload_of (x : item) : ptr := x.1.2.
Definition bytes_of (x : item) : list mbyte := x.2.

(** [chain h p l]: following [next] from [p] visits exactly the nodes of
    [l], top first, and ends in the null pointer; the payload of every
    node is a block of bytes obtained from [malloc]. *)
Fixpoint chain (h : gmap Z block) (p : ptr) (l : list item) : Prop :=
  match l with
  | [] => p = NULL
  | x :: l' =>
      p = node_of x /\
      exists nx, h !! node_of x = Some (BNode (StackNode.mk (payload_of x) nx)) /\
                 h !! payload_of x = Some (BBytes (bytes_of x)) /\
                 chain h nx l'
  end.

(** In heap [h], the stack at [sp] has element size [dsz] and holds exactly
    the elements [l]. *)
Definition stack_rep (h : gmap Z block) (sp : ptr) (dsz : Z) (l : list item) : Prop :=
  heap_ok h /\
  NoDup (node_of <$> l) /\
  NoDup (payload_of <$> l) /\
  exists s, h !! sp = Some (BStack s) /\
            Stack.data_size s = dsz /\
            Stack.size s = Z.of_nat (length l) /\
            chain h (Stack.head s) l.

(** The shape of a stack alone, whatever its payload pointers designate: a
    link is the address of a node and the payload pointer the node holds. *)
Definition link : Type := Z * Z.

Fixpoint links (h : gmap Z block) (p : ptr) (l : list link) : Prop :=
  match l with
  | [] => p = NULL
  | x :: l' =>
      p = x.1 /\
      exists nx, h !! x.1 = Some (BNode (StackNode.mk x.2 nx)) /\ links h nx l'
  end.

(** No payload pointer designates a node further down the stack. *)
Fixpoint payloads_clear (l : list link) : Prop :=
  match l with
  | [] => True
  | x :: l' => (x.2 ∉ l'.*1) /\ payloads_clear l'
  end.

Definition stack_wf (h : gmap Z block) (sp : ptr) (l : list link) : Prop :=
  heap_ok h /\
  NoDup (l.*1) /\
  payloads_clear l /\
  exists s, h !! sp = Some (BStack s) /\
            Stack.size s = Z.of_nat (length l) /\
            links h (Stack.head s) l.

(** The states a stack goes through, from its creation on.  Every call
    that returns is a step; the one thing asked of the caller is that the
    buffer it hands to [stack_emplace] is not a stack node. *)
Inductive reachable (sp : ptr) : mem -> Prop :=
| reach_initialise dsz m0 m :
    heap_ok (blocks m0) -> sp <> NULL ->
    stack_initialise dsz m0 = Ok sp m -> reachable sp m
| reach_push m data b m' :
    reachable sp m -> stack_push sp data m = Ok b m' -> reachable sp m'
| reach_emplace m data b m' :
    reachable sp m -> (forall n, blocks m !! data <> Some (BNode n)) ->
    stack_emplace sp data m = Ok b m' -> reachable sp m'
| reach_pop m b m' :
    reachable sp m -> stack_pop sp m = Ok b m' -> reachable sp m'
| reach_destroy m m' :
    reachable sp m -> stack_destroy sp m = Ok tt m' -> reachable sp m'.

(** ** The allocator's answers, read off the state *)

Definition next_answer (os : list (option Z)) : option Z :=
  match os with
  | [] => None
  | o :: _ => o
  end.

(** The address [malloc] returns in heap [h] on answer [o], if any. *)
Definition granted (h : gmap Z block) (o : option Z) : option Z :=
  match o with
  | Some a =>
      match h !! a with
      | None => if valid_addr a then Some a else None
      | Some _ => None
      end
  | None => None
  end.

(** What [malloc n] puts at the address it returns. *)
Definition fresh_bytes (n : Z) : block := BBytes (replicate (Z.to_nat n) None).

(** The heap after the payload allocation of [stack_allocate], and the
    pointer it stores in the node. *)
Definition with_payload (h : gmap Z block) (n : Z) (d : option Z) : gmap Z block :=
  match d with
  | Some a => <[a := fresh_bytes n]> h
  | None => h
  end.

Definition payload_ptr (d : option Z) : ptr :=
  match d with
  | Some a => a
  | None => NULL
  end.

(** The elements of a stack, top first, as values. *)
Definition contents (l : list item) : list (list mbyte) := bytes_of <$> l.

(** ** The primitives, step by step *)

Section primitives.

Lemma bind_Ok {A B} (c : M A) (k : A -> M B) m b m' :
  bind c k m = Ok b m' ->
  exists a m1, c m = Ok a m1 /\ k a m1 = Ok b m'.
Proof. unfold bind. destruct (c m); naive_solver. Qed.

Lemma bind_eq {A B} (c : M A) (k : A -> M B) m a m1 :
  c m = Ok a m1 -> bind c k m = k a m1.
Proof. unfold bind. by intros ->. Qed.

Lemma bind_UB {A B} (c : M A) (k : A -> M B) m :
  c m = UB -> bind c k m = UB.
Proof. unfold bind. by intros ->. Qed.

Lemma valid_addr_spec a : valid_addr a = true <-> 0 < a <= SIZE_MAX.
Proof. unfold valid_addr. rewrite andb_true_iff. lia. Qed.

Lemma malloc_total n m : exists p m', malloc n m = Ok p m'.
Proof. unfold malloc. repeat case_match; eauto. Qed.

Lemma malloc_inv n m p m' :
  malloc n m = Ok p m' ->
  (p = NULL /\ blocks m' = blocks m) \/
  (0 < p <= SIZE_MAX /\ blocks m !! p = None /\
   blocks m' = <[p := BBytes (replicate (Z.to_nat n) None)]> (blocks m)).
Proof.
  unfold malloc. intros H.
  repeat case_match; simplify_eq/=; auto.
  right. by rewrite <- valid_addr_spec.
Qed.

Lemma free_inv p m m' :
  free p m = Ok tt m' ->
  (p = NULL /\ m' = m) \/
  (p <> NULL /\ is_Some (blocks m !! p) /\ blocks m' = delete p (blocks m)).
Proof.
  unfold free. intros H.
  destruct (Z.eqb_spec p NULL); simplify_eq/=; auto.
  repeat case_match; simplify_eq/=. right. eauto.
Qed.

Lemma free_inv_allocated p m m' :
  free p m = Ok tt m' -> p <> NULL ->
  exists b, blocks m !! p = Some b /\ allocated b = true.
Proof.
  unfold free. intros H Hp.
  destruct (Z.eqb_spec p NULL); [done|].
  repeat case_match; simplify_eq/=. eauto.
Qed.

Lemma free_eq p m b :
  blocks m !! p = Some b -> allocated b = true -> p <> NULL ->
  free p m = Ok tt (mkmem (delete p (blocks m)) (oracle m)).
Proof.
  unfold free. intros -> -> Hp.
  by destruct (Z.eqb_spec p NULL).
Qed.

Lemma free_automatic p m bs :
  blocks m !! p = Some (BAuto bs) -> p <> NULL -> free p m = UB.
Proof.
  unfold free. intros -> Hp.
  by destruct (Z.eqb_spec p NULL).
Qed.

Lemma bytes_at_Some h p v :
  bytes_at h p = Some v <-> h !! p = Some (BBytes v) \/ h !! p = Some (BAuto v).
Proof.
  unfold bytes_at. split.
  - intros H. repeat case_match; simplify_eq; auto.
  - by intros [->| ->].
Qed.

Lemma bytes_at_live h p v : bytes_at h p = Some v -> is_Some (h !! p).
Proof. intros [->| ->]%bytes_at_Some; eauto. Qed.

Lemma bytes_at_bytes h p v : h !! p = Some (BBytes v) -> bytes_at h p = Some v.
Proof. unfold bytes_at. by intros ->. Qed.

Lemma bytes_at_insert_ne h a b p : a <> p -> bytes_at (<[a := b]> h) p = bytes_at h p.
Proof. intros. unfold bytes_at. by rewrite lookup_insert_ne. Qed.

Lemma bytes_at_insert_eq h a v : bytes_at (<[a := BBytes v]> h) a = Some v.
Proof. unfold bytes_at. by rewrite lookup_insert_eq. Qed.

Lemma bytes_at_delete_ne h a p : a <> p -> bytes_at (delete a h) p = bytes_at h p.
Proof. intros. unfold bytes_at. by rewrite lookup_delete_ne. Qed.

Lemma load_stack_inv p m s m' :
  load_stack p m = Ok s m' -> m' = m /\ blocks m !! p = Some (BStack s).
Proof. unfold load_stack. intros H. repeat case_match; by simplify_eq. Qed.

Lemma load_stack_eq p m s :
  blocks m !! p = Some (BStack s) -> load_stack p m = Ok s m.
Proof. unfold load_stack. by intros ->. Qed.

Lemma load_node_inv p m n m' :
  load_node p m = Ok n m' -> m' = m /\ blocks m !! p = Some (BNode n).
Proof. unfold load_node. intros H. repeat case_match; by simplify_eq. Qed.

Lemma load_node_eq p m n :
  blocks m !! p = Some (BNode n) -> load_node p m = Ok n m.
Proof. unfold load_node. by intros ->. Qed.

Lemma store_stack_inv p s m m' :
  store_stack p s m = Ok tt m' ->
  is_Some (blocks m !! p) /\ blocks m' = <[p := BStack s]> (blocks m).
Proof.
  unfold store_stack. intros H.
  repeat case_match; simplify_eq/=; split; eauto.
Qed.

Lemma store_node_inv p n m m' :
  store_node p n m = Ok tt m' ->
  ((exists n0, blocks m !! p = Some (BNode n0)) \/
   (exists bs, blocks m !! p = Some (BBytes bs))) /\
  blocks m' = <[p := BNode n]> (blocks m).
Proof.
  unfold store_node. intros H.
  repeat case_match; simplify_eq/=; split; eauto.
Qed.

Lemma set_head_inv sp v m m' :
  set_head sp v m = Ok tt m' ->
  exists s, blocks m !! sp = Some (BStack s) /\
            blocks m' = <[sp := BStack (Stack.mk (Stack.size s) (Stack.data_size s) v)]> (blocks m).
Proof.
  unfold set_head. intros H.
  apply bind_Ok in H as (s & m1 & H1 & H).
  apply load_stack_inv in H1 as [-> H1].
  apply store_stack_inv in H as [_ H]. eauto.
Qed.

Lemma set_head_eq sp v m s :
  blocks m !! sp = Some (BStack s) ->
  set_head sp v m =
  Ok tt (mkmem (<[sp := BStack (Stack.mk (Stack.size s) (Stack.data_size s) v)]> (blocks m))
               (oracle m)).
Proof.
  intros H. unfold set_head. rewrite (bind_eq _ _ _ _ _ (load_stack_eq _ _ _ H)).
  unfold store_stack. by rewrite H.
Qed.

Lemma set_size_inv sp v m m' :
  set_size sp v m = Ok tt m' ->
  exists s, blocks m !! sp = Some (BStack s) /\
            blocks m' = <[sp := BStack (Stack.mk v (Stack.data_size s) (Stack.head s))]> (blocks m).
Proof.
  unfold set_size. intros H.
  apply bind_Ok in H as (s & m1 & H1 & H).
  apply load_stack_inv in H1 as [-> H1].
  apply store_stack_inv in H as [_ H]. eauto.
Qed.

Lemma set_size_eq sp v m s :
  blocks m !! sp = Some (BStack s) ->
  set_size sp v m =
  Ok tt (mkmem (<[sp := BStack (Stack.mk v (Stack.data_size s) (Stack.head s))]> (blocks m))
               (oracle m)).
Proof.
  intros H. unfold set_size. rewrite (bind_eq _ _ _ _ _ (load_stack_eq _ _ _ H)).
  unfold store_stack. by rewrite H.
Qed.

Lemma set_data_inv p v m m' :
  set_data p v m = Ok tt m' ->
  exists n, blocks m !! p = Some (BNode n) /\
            blocks m' = <[p := BNode (StackNode.mk v (StackNode.next n))]> (blocks m).
Proof.
  unfold set_data. intros H.
  apply bind_Ok in H as (n & m1 & H1 & H).
  apply load_node_inv in H1 as [-> H1].
  apply store_node_inv in H as [_ H]. eauto.
Qed.

Lemma memcpy_inv dst src n m m' :
  memcpy dst src n m = Ok tt m' ->
  exists s d, bytes_at (blocks m) src = Some s /\
              n <= Z.of_nat (length s) /\ n <= Z.of_nat (length d) /\
              ((blocks m !! dst = Some (BBytes d) /\
                blocks m' = <[dst := BBytes (take (Z.to_nat n) s ++ drop (Z.to_nat n) d)]>
                              (blocks m)) \/
               (blocks m !! dst = Some (BAuto d) /\
                blocks m' = <[dst := BAuto (take (Z.to_nat n) s ++ drop (Z.to_nat n) d)]>
                              (blocks m))).
Proof.
  unfold memcpy. intros H.
  repeat case_match; simplify_eq/=;
    do 2 eexists; (split; [done|]); (split; [lia|]);
    (split; [|first [left; by split | right; by split]]); lia.
Qed.

End primitives.

(** Two heaps built from inserts and deletes are compared key by key. *)
Ltac heap_eq :=
  apply map_eq; intros ?i;
  repeat (rewrite lookup_insert || rewrite lookup_delete);
  repeat case_decide; simplify_eq; try done.

(** Splits a successful run of [x <- c ;; k] into the run of [c] and the
    run of [k]. *)
Ltac split_bind H a m1 H1 :=
  apply bind_Ok in H as (a & m1 & H1 & H).

(** ** The operations, step by step *)

Section operations.

Lemma stack_is_empty_inv sp m e m' :
  stack_is_empty sp m = Ok e m' ->
  m' = m /\
  ((sp = NULL /\ e = true) \/
   (sp <> NULL /\ exists s, blocks m !! sp = Some (BStack s) /\
                            e = (Stack.head s =? NULL))).
Proof.
  unfold stack_is_empty. intros H.
  destruct (Z.eqb_spec sp NULL) as [->|Hsp].
  - unfold ret in H. simplify_eq. auto.
  - split_bind H s m1 H1. apply load_stack_inv in H1 as [-> H1].
    unfold ret in H. simplify_eq. eauto 10.
Qed.

Lemma stack_is_empty_eq sp m s :
  blocks m !! sp = Some (BStack s) -> sp <> NULL ->
  stack_is_empty sp m = Ok (Stack.head s =? NULL) m.
Proof.
  intros H Hsp. unfold stack_is_empty.
  destruct (Z.eqb_spec sp NULL); [done|].
  by rewrite (bind_eq _ _ _ _ _ (load_stack_eq _ _ _ H)).
Qed.

Lemma stack_is_empty_head_null sp m s :
  blocks m !! sp = Some (BStack s) -> Stack.head s = NULL ->
  stack_is_empty sp m = Ok true m.
Proof.
  intros H Hh. unfold stack_is_empty.
  destruct (Z.eqb_spec sp NULL); [done|].
  rewrite (bind_eq _ _ _ _ _ (load_stack_eq _ _ _ H)).
  unfold ret. by rewrite Hh.
Qed.

Lemma stack_initialise_total dsz m :
  exists p m', stack_initialise dsz m = Ok p m' /\
    exists m1, malloc STACK_SIZE m = Ok p m1 /\
      ((p = NULL /\ blocks m' = blocks m) \/
       (0 < p <= SIZE_MAX /\ blocks m !! p = None /\
        blocks m' = <[p := BStack (Stack.mk 0 dsz NULL)]> (blocks m))).
Proof.
  destruct (malloc_total STACK_SIZE m) as (p & m1 & Hm).
  unfold stack_initialise. rewrite (bind_eq _ _ _ _ _ Hm). cbv beta.
  destruct (malloc_inv _ _ _ _ Hm) as [[-> Hb]|(Hp & Hfresh & Hb)].
  - exists NULL, m1. split; [done|]. exists m1. split; [done|]. by left.
  - destruct (Z.eqb_spec p NULL) as [->|Hn]; [unfold NULL in Hp; lia|].
    unfold bind, store_stack. rewrite Hb, lookup_insert_eq, length_replicate.
    simpl. eexists p, _. split; [reflexivity|].
    exists m1. split; [done|]. right. repeat split; try done; try lia.
    simpl. by heap_eq.
Qed.

Lemma stack_initialise_inv dsz m sp m' :
  stack_initialise dsz m = Ok sp m' -> sp <> NULL ->
  0 < sp <= SIZE_MAX /\ blocks m !! sp = None /\
  blocks m' = <[sp := BStack (Stack.mk 0 dsz NULL)]> (blocks m).
Proof.
  intros H Hsp.
  destruct (stack_initialise_total dsz m) as (p & m1 & H1 & _ & _ & [[-> _]| ?]);
    rewrite H in H1; by simplify_eq.
Qed.

Lemma stack_allocate_inv sp m b m' :
  stack_allocate sp m = Ok b m' ->
  (b = false /\ blocks m' = blocks m) \/
  (b = true /\ exists s a d h1,
     blocks m !! sp = Some (BStack s) /\
     0 < a <= SIZE_MAX /\ blocks m !! a = None /\
     ((d = NULL /\ h1 = blocks m) \/
      (0 < d <= SIZE_MAX /\ d <> a /\ blocks m !! d = None /\
       h1 = <[d := BBytes (replicate (Z.to_nat (Stack.data_size s)) None)]> (blocks m))) /\
     blocks m' = <[sp := BStack (Stack.mk (Stack.size s) (Stack.data_size s) a)]>
                   (<[a := BNode (StackNode.mk d (Stack.head s))]> h1)).
Proof.
  unfold stack_allocate. intros H.
  split_bind H a m1 Ha.
  apply malloc_inv in Ha as [[-> Hb1]|(Hva & Hfa & Hb1)].
  { simpl in H. unfold ret in H. simplify_eq. auto. }
  destruct (Z.eqb_spec a NULL) as [->|Hna]; [unfold NULL in Hva; lia|].
  split_bind H s m2 Hs. apply load_stack_inv in Hs as [-> Hs].
  split_bind H d m3 Hd.
  split_bind H u m4 Hst. destruct u.
  split_bind H u m5 Hh. destruct u.
  unfold ret in H. simplify_eq. right. split; [done|].
  apply store_node_inv in Hst as [_ Hb4].
  apply set_head_inv in Hh as (s' & Hs' & Hb5).
  rewrite Hb1 in Hs.
  assert (sp <> a) as Hspa by (intros ->; by rewrite lookup_insert_eq in Hs).
  rewrite lookup_insert_ne in Hs by done.
  apply malloc_inv in Hd as [[-> Hb3]|(Hvd & Hfd & Hb3)].
  - rewrite Hb4, Hb3, Hb1 in Hs'.
    rewrite lookup_insert_ne, lookup_insert_ne in Hs' by done.
    simplify_eq.
    exists s, a, NULL, (blocks m). repeat split; auto; try lia.
    rewrite Hb5, Hb4, Hb3, Hb1. by heap_eq.
  - rewrite Hb1 in Hfd.
    assert (d <> a) as Hda by (intros ->; by rewrite lookup_insert_eq in Hfd).
    rewrite lookup_insert_ne in Hfd by done.
    assert (sp <> d) as Hspd by (intros ->; by simplify_eq).
    rewrite Hb4, Hb3, Hb1 in Hs'.
    rewrite !lookup_insert_ne in Hs' by done.
    simplify_eq.
    exists s, a, d,
      (<[d := BBytes (replicate (Z.to_nat (Stack.data_size s)) None)]> (blocks m)).
    split; [done|]. split; [lia|]. split; [done|]. split; [right; auto|].
    rewrite Hb5, Hb4, Hb3, Hb1. by heap_eq.
Qed.

Lemma stack_push_inv sp data m b m' :
  blocks m !! NULL = None ->
  stack_push sp data m = Ok b m' ->
  (b = false /\ blocks m' = blocks m) \/
  (b = true /\ data <> NULL /\ exists s a d bs,
     blocks m !! sp = Some (BStack s) /\
     0 < a <= SIZE_MAX /\ blocks m !! a = None /\
     0 < d <= SIZE_MAX /\ blocks m !! d = None /\ d <> a /\
     (forall v, bytes_at (blocks m) data = Some v ->
                bs = take (Z.to_nat (Stack.data_size s)) v) /\
     blocks m' = <[sp := BStack (Stack.mk (size_wrap (Stack.size s + 1)) (Stack.data_size s) a)]>
                   (<[a := BNode (StackNode.mk d (Stack.head s))]>
                      (<[d := BBytes bs]> (blocks m)))).
Proof.
  unfold stack_push. intros Hnull H.
  destruct (Z.eqb_spec data NULL) as [->|Hdata].
  { unfold ret in H. simplify_eq. auto. }
  split_bind H ok m1 Hal.
  apply stack_allocate_inv in Hal
    as [[-> Hb1]|(-> & s & a & d & h1 & Hs & Hva & Hfa & Hd & Hb1)]; simpl in H.
  { unfold ret in H. simplify_eq. auto. }
  assert (sp <> a) as Hspa by (intros ->; congruence).
  split_bind H s1 m2 Hs1. apply load_stack_inv in Hs1 as [-> Hs1].
  rewrite Hb1, lookup_insert_eq in Hs1. simplify_eq. simpl in H.
  split_bind H n m2 Hn. apply load_node_inv in Hn as [-> Hn].
  rewrite Hb1, lookup_insert_ne, lookup_insert_eq in Hn by done.
  simplify_eq. simpl in H.
  split_bind H u m2 Hcp. destruct u.
  apply memcpy_inv in Hcp as (src & dst & Hsrc & Hls & Hld & Hcp).
  split_bind H s2 m3 Hs2. apply load_stack_inv in Hs2 as [-> Hs2].
  split_bind H u m3 Hsz. destruct u.
  apply set_size_inv in Hsz as (s3 & Hs3 & Hb3).
  unfold ret in H. simplify_eq. right. split; [done|]. split; [done|].
  destruct Hd as [[-> ->]|(Hvd & Hda & Hfd & ->)].
  { exfalso. destruct Hcp as [[Hdst _]|[Hdst _]]; rewrite Hb1 in Hdst;
      (rewrite !lookup_insert_ne, Hnull in Hdst; [done| |]; intros ->;
       [unfold NULL in Hva; lia|congruence]). }
  assert (sp <> d) as Hspd by (intros ->; congruence).
  destruct Hcp as [[Hdst Hb2]|[Hdst _]];
    rewrite Hb1, !lookup_insert_ne, lookup_insert_eq in Hdst by done; [|done].
  simplify_eq.
  rewrite Hb2, lookup_insert_ne, Hb1, lookup_insert_eq in Hs2 by done.
  simplify_eq. simpl in *.
  rewrite drop_replicate, Nat.sub_diag, app_nil_r in Hb2. simpl in Hb2.
  exists s, a, d, (take (Z.to_nat (Stack.data_size s)) src).
  split; [done|]. split; [done|]. split; [done|]. split; [done|].
  split; [done|]. split; [done|]. split.
  - intros v Hv. rewrite Hb1 in Hsrc.
    pose proof Hv as [Hlive|Hlive]%bytes_at_Some;
      (rewrite !bytes_at_insert_ne, Hv in Hsrc; [by simplify_eq|..];
       intros ->; congruence).
  - rewrite Hb3, Hb2, Hb1. by heap_eq.
Qed.

Lemma stack_emplace_inv sp data m b m' :
  stack_emplace sp data m = Ok b m' ->
  (b = false /\ blocks m' = blocks m) \/
  (b = true /\ data <> NULL /\ exists s a d h1,
     blocks m !! sp = Some (BStack s) /\
     0 < a <= SIZE_MAX /\ blocks m !! a = None /\
     ((d = NULL /\ h1 = blocks m) \/
      (0 < d <= SIZE_MAX /\ d <> a /\ blocks m !! d = None /\
       h1 = <[d := BBytes (replicate (Z.to_nat (Stack.data_size s)) None)]> (blocks m))) /\
     blocks m' = <[sp := BStack (Stack.mk (size_wrap (Stack.size s + 1)) (Stack.data_size s) a)]>
                   (<[a := BNode (StackNode.mk data (Stack.head s))]> h1)).
Proof.
  unfold stack_emplace. intros H.
  destruct (Z.eqb_spec data NULL) as [->|Hdata].
  { unfold ret in H. simplify_eq. auto. }
  split_bind H ok m1 Hal.
  apply stack_allocate_inv in Hal
    as [[-> Hb1]|(-> & s & a & d & h1 & Hs & Hva & Hfa & Hd & Hb1)]; simpl in H.
  { unfold ret in H. simplify_eq. auto. }
  assert (sp <> a) as Hspa by (intros ->; congruence).
  split_bind H s1 m2 Hs1. apply load_stack_inv in Hs1 as [-> Hs1].
  rewrite Hb1, lookup_insert_eq in Hs1. simplify_eq. simpl in H.
  split_bind H u m2 Hsd. destruct u.
  apply set_data_inv in Hsd as (n & Hn & Hb2).
  rewrite Hb1, lookup_insert_ne, lookup_insert_eq in Hn by done.
  simplify_eq. simpl in Hb2.
  split_bind H s2 m3 Hs2. apply load_stack_inv in Hs2 as [-> Hs2].
  split_bind H u m3 Hsz. destruct u.
  apply set_size_inv in Hsz as (s3 & Hs3 & Hb3).
  unfold ret in H. simplify_eq.
  rewrite Hb2, lookup_insert_ne, Hb1, lookup_insert_eq in Hs2 by done.
  simplify_eq. simpl in *.
  right. split; [done|]. split; [done|].
  exists s, a, d, h1. repeat (split; [done|]).
  rewrite Hb3, Hb2, Hb1. by heap_eq.
Qed.

Lemma lookup_release_Some p h x b :
  release p h !! x = Some b -> h !! x = Some b.
Proof.
  unfold release. destruct (p =? NULL); [done|].
  rewrite lookup_delete. by case_decide.
Qed.

Lemma lookup_release_ne p h x :
  x <> p -> release p h !! x = h !! x.
Proof.
  unfold release. intros. destruct (p =? NULL); [done|].
  by rewrite lookup_delete_ne.
Qed.

Lemma free_release p m m' :
  free p m = Ok tt m' -> blocks m' = release p (blocks m).
Proof.
  intros H. unfold release.
  apply free_inv in H as [[-> ->]|(Hp & _ & ->)]; [done|].
  by destruct (Z.eqb_spec p NULL).
Qed.

Lemma stack_pop_inv sp m b m' :
  stack_pop sp m = Ok b m' ->
  (b = false /\ m' = m) \/
  (b = true /\ exists s n,
     blocks m !! sp = Some (BStack s) /\
     Stack.head s <> NULL /\
     blocks m !! Stack.head s = Some (BNode n) /\
     blocks m' = <[sp := BStack (Stack.mk (size_wrap (Stack.size s - 1)) (Stack.data_size s)
                                          (StackNode.next n))]>
                   (release (Stack.head s) (release (StackNode.data n) (blocks m)))).
Proof.
  unfold stack_pop. intros H.
  split_bind H e m1 He.
  apply stack_is_empty_inv in He as [-> [[-> ->]|(Hsp & s & Hs & ->)]].
  { unfold ret in H. simplify_eq. auto. }
  destruct (Z.eqb_spec (Stack.head s) NULL) as [Hh|Hh].
  { unfold ret in H. simplify_eq. auto. }
  split_bind H s1 m1 Hs1. apply load_stack_inv in Hs1 as [-> Hs1].
  simplify_eq. cbv zeta in H.
  split_bind H n m1 Hn. apply load_node_inv in Hn as [-> Hn].
  assert (sp <> Stack.head s) as Hne by (intros Heq; rewrite <- Heq in Hn; congruence).
  split_bind H u m1 Hsh. destruct u.
  apply set_head_inv in Hsh as (s2 & Hs2 & Hb1). simplify_eq.
  split_bind H n1 m2 Hn1. apply load_node_inv in Hn1 as [-> Hn1].
  rewrite Hb1, lookup_insert_ne in Hn1 by done. simplify_eq.
  split_bind H u m2 Hf1. destruct u. apply free_release in Hf1 as Hb2.
  split_bind H u m3 Hf2. destruct u. apply free_release in Hf2 as Hb3.
  split_bind H s3 m4 Hs3. apply load_stack_inv in Hs3 as [-> Hs3].
  split_bind H u m4 Hsz. destruct u.
  apply set_size_inv in Hsz as (s4 & Hs4 & Hb4).
  unfold ret in H. simplify_eq.
  rewrite Hb3, Hb2 in Hs3.
  pose proof Hs3 as Hs3'.
  do 2 apply lookup_release_Some in Hs3'.
  rewrite Hb1, lookup_insert_eq in Hs3'. simplify_eq. simpl in *.
  right. split; [done|]. exists s, n. repeat (split; [done|]).
  rewrite Hb4, Hb3, Hb2, Hb1.
  apply map_eq. intros i.
  destruct (decide (i = sp)) as [->|Hi]; [by rewrite !lookup_insert_eq|].
  rewrite !(lookup_insert_ne _ sp) by done.
  unfold release. repeat case_match;
    repeat (rewrite lookup_insert || rewrite lookup_delete);
    repeat case_decide; simplify_eq; done.
Qed.

End operations.

(** ** Heaps and chains *)

Section heaps.

Lemma heap_ok_lookup h a b : heap_ok h -> h !! a = Some b -> 0 < a <= SIZE_MAX.
Proof. intros Hh Ha. exact (Hh a b Ha). Qed.

Lemma heap_ok_null h : heap_ok h -> h !! NULL = None.
Proof.
  intros Hh. destruct (h !! NULL) eqn:E; [|done].
  apply (heap_ok_lookup _ _ _ Hh) in E. unfold NULL in E. lia.
Qed.

Lemma heap_ok_insert h a b : 0 < a <= SIZE_MAX -> heap_ok h -> heap_ok (<[a := b]> h).
Proof. intros Ha Hh. by apply map_Forall_insert_2. Qed.

Lemma heap_ok_delete h a : heap_ok h -> heap_ok (delete a h).
Proof. intros Hh. by apply map_Forall_delete. Qed.

(** A list of distinct addresses cannot be longer than the address space. *)
Lemma NoDup_bounded_length (n : nat) (l : list Z) :
  NoDup l -> (forall x, x ∈ l -> 0 < x <= Z.of_nat n) -> (length l <= n)%nat.
Proof.
  intros Hnd Hin.
  assert (l ⊆+ (Z.of_nat <$> seq 1 n)) as Hsub.
  { apply NoDup_submseteq; [done|]. intros x Hx.
    specialize (Hin x Hx).
    apply list_elem_of_fmap. exists (Z.to_nat x). split; [lia|].
    apply elem_of_seq. lia. }
  apply submseteq_length in Hsub.
  by rewrite length_fmap, length_seq in Hsub.
Qed.

Lemma chain_nodes_live h p l x :
  chain h p l -> x ∈ l -> is_Some (h !! node_of x).
Proof.
  revert p. induction l as [|y l IH]; intros p Hc Hx; [by apply elem_of_nil in Hx|].
  destruct Hc as (_ & nx & Hn & _ & Hc).
  apply elem_of_cons in Hx as [->|Hx]; eauto.
Qed.

Lemma chain_item h p l x :
  chain h p l -> x ∈ l ->
  exists nx, h !! node_of x = Some (BNode (StackNode.mk (payload_of x) nx)) /\
             h !! payload_of x = Some (BBytes (bytes_of x)).
Proof.
  revert p. induction l as [|y l IH]; intros p Hc Hx; [by apply elem_of_nil in Hx|].
  destruct Hc as (_ & nx & Hn & Hp & Hc).
  apply elem_of_cons in Hx as [->|Hx]; eauto.
Qed.

Lemma chain_length_bound h p l :
  heap_ok h -> chain h p l -> NoDup (node_of <$> l) ->
  Z.of_nat (length l) <= SIZE_MAX.
Proof.
  intros Hh Hc Hnd.
  pose proof (NoDup_bounded_length (Z.to_nat SIZE_MAX) (node_of <$> l) Hnd) as Hb.
  rewrite length_fmap in Hb.
  assert (0 <= SIZE_MAX) by (unfold SIZE_MAX; lia).
  enough (length l <= Z.to_nat SIZE_MAX)%nat by lia.
  apply Hb. intros a Ha.
  apply list_elem_of_fmap in Ha as (x & -> & Hx).
  destruct (chain_nodes_live _ _ _ _ Hc Hx) as [b Hlk].
  apply (heap_ok_lookup _ _ _ Hh) in Hlk. lia.
Qed.

(** A chain only depends on the blocks it visits. *)
Lemma chain_frame h h' p l :
  chain h p l ->
  (forall x, x ∈ l -> h' !! node_of x = h !! node_of x /\
                      h' !! payload_of x = h !! payload_of x) ->
  chain h' p l.
Proof.
  revert p. induction l as [|y l IH]; intros p Hc Hf; [done|].
  destruct Hc as (-> & nx & Hn & Hp & Hc).
  split; [done|]. exists nx.
  destruct (Hf y) as [-> ->]; [left|].
  repeat split; [done..|].
  apply IH; [done|]. intros x Hx. apply Hf. by right.
Qed.

End heaps.

(** ** What the operations do to a well-formed stack *)

Section representation.

Lemma size_wrap_small z : 0 <= z <= SIZE_MAX -> size_wrap z = z.
Proof. intros Hz. unfold size_wrap. apply Z.mod_small. lia. Qed.

Lemma rep_heap_ok h sp dsz l : stack_rep h sp dsz l -> heap_ok h.
Proof. by intros [? _]. Qed.

Lemma rep_record h sp dsz l :
  stack_rep h sp dsz l ->
  exists s, h !! sp = Some (BStack s) /\ Stack.data_size s = dsz /\
            Stack.size s = Z.of_nat (length l) /\ chain h (Stack.head s) l.
Proof. by intros (_ & _ & _ & ?). Qed.

Lemma rep_sp_not_null h sp dsz l : stack_rep h sp dsz l -> sp <> NULL.
Proof.
  intros Hrep. destruct (rep_record _ _ _ _ Hrep) as (s & Hs & _).
  intros ->. by rewrite (heap_ok_null _ (rep_heap_ok _ _ _ _ Hrep)) in Hs.
Qed.

Lemma rep_head h sp dsz l s :
  stack_rep h sp dsz l -> h !! sp = Some (BStack s) ->
  (Stack.head s = NULL <-> l = []).
Proof.
  intros Hrep Hs. destruct (rep_record _ _ _ _ Hrep) as (s' & Hs' & _ & _ & Hc).
  simplify_eq. destruct l as [|x l]; simpl in Hc; [done|].
  destruct Hc as (Hh & nx & Hn & _). split; [|done].
  intros Hnull. rewrite Hnull in Hh. rewrite <- Hh in Hn.
  by rewrite (heap_ok_null _ (rep_heap_ok _ _ _ _ Hrep)) in Hn.
Qed.

Lemma rep_initialise dsz m0 sp m :
  heap_ok (blocks m0) -> sp <> NULL ->
  stack_initialise dsz m0 = Ok sp m ->
  stack_rep (blocks m) sp dsz [].
Proof.
  intros Hok Hsp Hinit.
  apply stack_initialise_inv in Hinit as (Hv & Hfresh & ->); [|done].
  split; [by apply heap_ok_insert|].
  split; [constructor|]. split; [constructor|].
  eexists. rewrite lookup_insert_eq. by repeat split.
Qed.

Lemma rep_is_empty m sp dsz l :
  stack_rep (blocks m) sp dsz l ->
  stack_is_empty sp m = Ok (bool_decide (l = [])) m.
Proof.
  intros Hrep. destruct (rep_record _ _ _ _ Hrep) as (s & Hs & _).
  rewrite (stack_is_empty_eq _ _ _ Hs (rep_sp_not_null _ _ _ _ Hrep)).
  f_equal. pose proof (rep_head _ _ _ _ _ Hrep Hs) as Hh.
  destruct (Z.eqb_spec (Stack.head s) NULL) as [E|E]; case_bool_decide as E';
    try done; [destruct E'|destruct E]; by apply Hh.
Qed.

Lemma rep_size m sp dsz l :
  stack_rep (blocks m) sp dsz l ->
  stack_size sp m = Ok (Z.of_nat (length l)) m.
Proof.
  intros Hrep. unfold stack_size.
  rewrite (bind_eq _ _ _ _ _ (rep_is_empty _ _ _ _ Hrep)).
  destruct (rep_record _ _ _ _ Hrep) as (s & Hs & _ & Hsz & _).
  case_bool_decide as Hl; simpl.
  - by rewrite Hl.
  - rewrite (bind_eq _ _ _ _ _ (load_stack_eq _ _ _ Hs)). unfold ret. by rewrite Hsz.
Qed.

Lemma rep_peek m sp dsz x l :
  stack_rep (blocks m) sp dsz (x :: l) ->
  stack_peek sp m = Ok (payload_of x) m.
Proof.
  intros Hrep. unfold stack_peek.
  rewrite (bind_eq _ _ _ _ _ (rep_is_empty _ _ _ _ Hrep)). simpl.
  destruct (rep_record _ _ _ _ Hrep) as (s & Hs & _ & _ & Hh & nx & Hn & _).
  rewrite (bind_eq _ _ _ _ _ (load_stack_eq _ _ _ Hs)). rewrite Hh.
  by rewrite (bind_eq _ _ _ _ _ (load_node_eq _ _ _ Hn)).
Qed.

Lemma rep_peek_value m sp dsz x l :
  stack_rep (blocks m) sp dsz (x :: l) ->
  peek_value sp m = Ok (Some (bytes_of x)) m.
Proof.
  intros Hrep. unfold peek_value.
  rewrite (bind_eq _ _ _ _ _ (rep_peek _ _ _ _ _ Hrep)).
  destruct (rep_record _ _ _ _ Hrep) as (s & Hs & _ & _ & Hh & nx & Hn & Hp & _).
  destruct (Z.eqb_spec (payload_of x) NULL) as [Hnull|_].
  - rewrite Hnull in Hp.
    by rewrite (heap_ok_null _ (rep_heap_ok _ _ _ _ Hrep)) in Hp.
  - by rewrite (bytes_at_bytes _ _ _ Hp).
Qed.

(** Pushing and emplacing differ in where the payload comes from; what
    they do to the representation is the same. *)
Lemma rep_grow h h' sp dsz l s a d bs :
  stack_rep h sp dsz l ->
  h !! sp = Some (BStack s) ->
  h !! a = None -> 0 < a <= SIZE_MAX ->
  d ∉ payload_of <$> l ->
  heap_ok h' ->
  (forall y b, h !! y = Some b -> y <> sp -> h' !! y = Some b) ->
  h' !! a = Some (BNode (StackNode.mk d (Stack.head s))) ->
  h' !! d = Some (BBytes bs) ->
  h' !! sp = Some (BStack (Stack.mk (size_wrap (Stack.size s + 1)) dsz a)) ->
  stack_rep h' sp dsz ((a, d, bs) :: l).
Proof.
  intros Hrep Hs Hfa Hva Hd Hok' Hframe Ha' Hd' Hs'.
  destruct Hrep as (Hok & Hnd1 & Hnd2 & s0 & Hs0 & Hdsz & Hsz & Hc). simplify_eq.
  assert (chain h' (Stack.head s0) l) as Hc'.
  { apply (chain_frame h); [done|]. intros x Hx.
    destruct (chain_item _ _ _ _ Hc Hx) as (nx & Hn & Hp).
    rewrite Hn, Hp. split; apply Hframe; try done; congruence. }
  assert (a ∉ node_of <$> l) as Hna.
  { intros Hin. apply list_elem_of_fmap in Hin as (x & -> & Hx).
    destruct (chain_nodes_live _ _ _ _ Hc Hx) as [b Hb]. congruence. }
  assert (NoDup (node_of <$> (a, d, bs) :: l)) as Hnd1' by (by constructor).
  assert (chain h' a ((a, d, bs) :: l)) as Hc''.
  { split; [done|]. exists (Stack.head s0). by repeat split. }
  pose proof (chain_length_bound _ _ _ Hok' Hc'' Hnd1') as Hlen.
  split; [done|]. split; [done|]. split; [by constructor|].
  eexists. split; [done|]. simpl. split; [done|]. split.
  - rewrite Hsz, size_wrap_small; simpl in Hlen; lia.
  - split; [done|]. exists (Stack.head s0). by repeat split.
Qed.

Lemma rep_payload_live h sp dsz l d :
  stack_rep h sp dsz l -> d ∈ payload_of <$> l -> is_Some (h !! d).
Proof.
  intros Hrep Hd. destruct (rep_record _ _ _ _ Hrep) as (s & _ & _ & _ & Hc).
  apply list_elem_of_fmap in Hd as (x & -> & Hx).
  destruct (chain_item _ _ _ _ Hc Hx) as (nx & _ & Hp). eauto.
Qed.

Lemma rep_push m sp dsz l data m' :
  stack_rep (blocks m) sp dsz l ->
  stack_push sp data m = Ok true m' ->
  exists x, stack_rep (blocks m') sp dsz (x :: l) /\
            (forall v, bytes_at (blocks m) data = Some v ->
                       bytes_of x = take (Z.to_nat dsz) v) /\
            (forall y b, blocks m !! y = Some b -> y <> sp -> blocks m' !! y = Some b).
Proof.
  intros Hrep Hpush.
  pose proof (rep_heap_ok _ _ _ _ Hrep) as Hok.
  apply stack_push_inv in Hpush
      as [[? _]|(_ & Hdata & s & a & d & bs & Hs & Hva & Hfa & Hvd & Hfd & Hda & Hbs & Hb)];
    [done| |by apply heap_ok_null].
  destruct (rep_record _ _ _ _ Hrep) as (s0 & Hs0 & Hdsz & _).
  rewrite Hs in Hs0. injection Hs0 as <-. subst dsz.
  assert (sp <> a) as Hspa by (intros ->; congruence).
  assert (sp <> d) as Hspd by (intros ->; congruence).
  assert (forall y b, blocks m !! y = Some b -> y <> sp -> blocks m' !! y = Some b) as Hframe.
  { intros y b Hy Hysp. rewrite Hb.
    rewrite !lookup_insert_ne; [done|..]; intros ->; congruence. }
  exists (a, d, bs). split; [|by split].
  eapply rep_grow; eauto.
  - intros Hin. destruct (rep_payload_live _ _ _ _ _ Hrep Hin) as [b Hlive]. congruence.
  - rewrite Hb. repeat apply heap_ok_insert; try done.
    by apply (heap_ok_lookup _ _ _ Hok Hs).
  - rewrite Hb. by rewrite lookup_insert_ne, lookup_insert_eq.
  - rewrite Hb. by rewrite lookup_insert_ne, lookup_insert_ne, lookup_insert_eq.
  - rewrite Hb. by rewrite lookup_insert_eq.
Qed.

Lemma stack_pop_total sp m s d nx b :
  sp <> NULL ->
  blocks m !! sp = Some (BStack s) ->
  Stack.head s <> NULL ->
  blocks m !! Stack.head s = Some (BNode (StackNode.mk d nx)) ->
  blocks m !! d = Some b -> allocated b = true ->
  d <> NULL -> d <> Stack.head s -> d <> sp ->
  exists m', stack_pop sp m = Ok true m'.
Proof.
  intros Hsp Hs Hh Hn Hd Hal Hdn Hdh Hdsp.
  assert (sp <> Stack.head s) as Hne by congruence.
  unfold stack_pop.
  rewrite (bind_eq _ _ _ _ _ (stack_is_empty_eq _ _ _ Hs Hsp)).
  destruct (Z.eqb_spec (Stack.head s) NULL); [done|].
  rewrite (bind_eq _ _ _ _ _ (load_stack_eq _ _ _ Hs)). cbv zeta.
  rewrite (bind_eq _ _ _ _ _ (load_node_eq _ _ _ Hn)).
  rewrite (bind_eq _ _ _ _ _ (set_head_eq _ _ _ _ Hs)).
  erewrite bind_eq;
    [|apply load_node_eq; simpl; rewrite lookup_insert_ne by done; exact Hn].
  erewrite bind_eq;
    [|eapply free_eq; simpl; [rewrite lookup_insert_ne by done; exact Hd|done|done]].
  erewrite bind_eq;
    [|eapply free_eq; simpl;
      [rewrite lookup_delete_ne, lookup_insert_ne by done; exact Hn|done|done]].
  erewrite bind_eq;
    [|apply load_stack_eq; simpl;
      rewrite !lookup_delete_ne, lookup_insert_eq by done; reflexivity].
  erewrite bind_eq;
    [|apply set_size_eq; simpl;
      rewrite !lookup_delete_ne, lookup_insert_eq by done; reflexivity].
  eexists. reflexivity.
Qed.

Lemma rep_pop m sp dsz x l :
  stack_rep (blocks m) sp dsz (x :: l) ->
  exists m', stack_pop sp m = Ok true m' /\
             stack_rep (blocks m') sp dsz l /\
             (forall y, y <> sp -> y <> node_of x -> y <> payload_of x ->
                        blocks m' !! y = blocks m !! y).
Proof.
  intros Hrep.
  pose proof (rep_sp_not_null _ _ _ _ Hrep) as Hsp.
  destruct Hrep as (Hok & Hnd1 & Hnd2 & s & Hs & Hdsz & Hsz & Hc).
  pose proof (chain_length_bound _ _ _ Hok Hc Hnd1) as Hlen.
  destruct Hc as (Hh & nx & Hn & Hp & Hc).
  pose proof (heap_ok_lookup _ _ _ Hok Hn) as Hva.
  pose proof (heap_ok_lookup _ _ _ Hok Hp) as Hvd.
  assert (node_of x <> NULL) as Hnn by (unfold NULL; lia).
  assert (payload_of x <> NULL) as Hpn by (unfold NULL; lia).
  assert (payload_of x <> node_of x) as Hpa by congruence.
  assert (payload_of x <> sp) as Hpsp by congruence.
  assert (node_of x <> sp) as Hasp by congruence.
  destruct (stack_pop_total sp m s (payload_of x) nx (BBytes (bytes_of x)))
    as [m' Hpop]; try done; try (rewrite Hh; done).
  exists m'. split; [done|].
  apply stack_pop_inv in Hpop as [[? _]|(_ & s' & n' & Hs' & _ & Hn' & Hb)]; [done|].
  rewrite Hs in Hs'. injection Hs' as <-.
  rewrite Hh, Hn in Hn'. injection Hn' as <-. simpl in Hb.
  rewrite Hh in Hb. unfold release in Hb.
  destruct (Z.eqb_spec (node_of x) NULL); [done|].
  destruct (Z.eqb_spec (payload_of x) NULL); [done|].
  assert (forall y, y <> sp -> y <> node_of x -> y <> payload_of x ->
                    blocks m' !! y = blocks m !! y) as Hframe.
  { intros y ? ? ?. rewrite Hb. by rewrite lookup_insert_ne, !lookup_delete_ne. }
  split; [|done].
  apply NoDup_cons in Hnd1 as [Hx1 Hnd1]. apply NoDup_cons in Hnd2 as [Hx2 Hnd2].
  split.
  { rewrite Hb. apply heap_ok_insert; [|by do 2 apply heap_ok_delete].
    by apply (heap_ok_lookup _ _ _ Hok Hs). }
  split; [done|]. split; [done|].
  eexists. split; [by rewrite Hb, lookup_insert_eq|]. simpl.
  split; [done|]. split.
  { simpl in Hsz, Hlen. rewrite Hsz, size_wrap_small; lia. }
  apply (chain_frame (blocks m)); [done|]. intros y Hy.
  destruct (chain_item _ _ _ _ Hc Hy) as (ny & Hyn & Hyp).
  split; apply Hframe; try congruence.
  - intros E. apply Hx1. rewrite <- E. apply list_elem_of_fmap. eauto.
  - intros E. apply Hx2. rewrite <- E. apply list_elem_of_fmap. eauto.
Qed.

Lemma free_ok p m :
  p = NULL \/ (exists b, blocks m !! p = Some b /\ allocated b = true) ->
  free p m = Ok tt (mkmem (release p (blocks m)) (oracle m)).
Proof.
  unfold free, release. intros Hp.
  destruct (Z.eqb_spec p NULL) as [->|Hn]; [by destruct m|].
  destruct Hp as [?|(b & -> & ->)]; done.
Qed.

Lemma load_node_dangling p m : blocks m !! p = None -> load_node p m = UB.
Proof. unfold load_node. by intros ->. Qed.

Lemma stack_peek_eq sp m s n :
  sp <> NULL ->
  blocks m !! sp = Some (BStack s) ->
  Stack.head s <> NULL ->
  blocks m !! Stack.head s = Some (BNode n) ->
  stack_peek sp m = Ok (StackNode.data n) m.
Proof.
  intros Hsp Hs Hh Hn. unfold stack_peek.
  rewrite (bind_eq _ _ _ _ _ (stack_is_empty_eq _ _ _ Hs Hsp)).
  destruct (Z.eqb_spec (Stack.head s) NULL); [done|].
  rewrite (bind_eq _ _ _ _ _ (load_stack_eq _ _ _ Hs)).
  by rewrite (bind_eq _ _ _ _ _ (load_node_eq _ _ _ Hn)).
Qed.

(** One turn of the loop of [stack_destroy] on a stack whose top node and
    payload are live allocated blocks: the payload and the node below the top one are
    freed; the top node itself stays. *)
Lemma destroy_body_eq sp m s d nx b :
  sp <> NULL ->
  blocks m !! sp = Some (BStack s) ->
  Stack.head s <> NULL ->
  blocks m !! Stack.head s = Some (BNode (StackNode.mk d nx)) ->
  blocks m !! d = Some b -> allocated b = true ->
  d <> NULL -> d <> Stack.head s -> d <> sp ->
  nx = NULL \/ ((exists bx, blocks m !! nx = Some bx /\ allocated bx = true) /\
                nx <> d /\ nx <> sp) ->
  destroy_body sp m =
  Ok tt (mkmem (<[sp := BStack (Stack.mk (size_wrap (Stack.size s - 1)) (Stack.data_size s) nx)]>
                  (release nx
                     (<[sp := BStack (Stack.mk (Stack.size s) (Stack.data_size s) nx)]>
                        (delete d (blocks m)))))
               (oracle m)).
Proof.
  intros Hsp Hs Hh Hn Hd Hal Hdn Hdh Hdsp Hnx.
  assert (sp <> Stack.head s) as Hne by congruence.
  unfold destroy_body.
  rewrite (bind_eq _ _ _ _ _ (stack_peek_eq _ _ _ _ Hsp Hs Hh Hn)). simpl.
  rewrite (bind_eq _ _ _ _ _ (free_eq _ _ _ Hd Hal Hdn)).
  assert (delete d (blocks m) !! sp = Some (BStack s)) as Hs1
      by (by rewrite lookup_delete_ne).
  assert (delete d (blocks m) !! Stack.head s = Some (BNode (StackNode.mk d nx))) as Hn1
      by (by rewrite lookup_delete_ne).
  erewrite bind_eq; [|apply load_stack_eq; exact Hs1].
  erewrite bind_eq; [|apply load_node_eq; exact Hn1]. cbv zeta. simpl StackNode.next.
  erewrite bind_eq; [|apply load_stack_eq; exact Hs1].
  erewrite bind_eq; [|apply load_node_eq; exact Hn1]. simpl StackNode.next.
  erewrite bind_eq; [|apply set_head_eq; exact Hs1].
  erewrite bind_eq.
  2: { apply free_ok. simpl. destruct Hnx as [?|((bx & Hx & ?) & ? & ?)]; [by left|right].
       exists bx. by rewrite lookup_insert_ne, lookup_delete_ne. }
  simpl.
  assert (release nx (<[sp:=BStack (Stack.mk (Stack.size s) (Stack.data_size s) nx)]>
                        (delete d (blocks m))) !! sp
          = Some (BStack (Stack.mk (Stack.size s) (Stack.data_size s) nx))) as Hs2.
  { rewrite lookup_release_ne; [by rewrite lookup_insert_eq|].
    destruct Hnx as [->|(_ & _ & ?)]; done. }
  erewrite bind_eq; [|apply load_stack_eq; exact Hs2].
  erewrite set_size_eq; [|exact Hs2]. done.
Qed.

Lemma rep_destroy_empty m sp dsz :
  stack_rep (blocks m) sp dsz [] -> stack_destroy sp m = Ok tt m.
Proof.
  intros Hrep. unfold stack_destroy. simpl.
  by rewrite (bind_eq _ _ _ _ _ (rep_is_empty _ _ _ _ Hrep)).
Qed.

(** With exactly one element the loop ends, but what it frees after the
    payload is the null [next]: the node itself stays allocated. *)
Lemma rep_destroy_one m sp dsz x :
  stack_rep (blocks m) sp dsz [x] ->
  exists m', stack_destroy sp m = Ok tt m' /\
             stack_rep (blocks m') sp dsz [] /\
             blocks m' !! node_of x = blocks m !! node_of x /\
             is_Some (blocks m' !! node_of x).
Proof.
  intros Hrep.
  pose proof (rep_sp_not_null _ _ _ _ Hrep) as Hsp.
  pose proof (rep_is_empty _ _ _ _ Hrep) as Hemp.
  rewrite bool_decide_eq_false_2 in Hemp by done.
  destruct Hrep as (Hok & Hnd1 & Hnd2 & s & Hs & Hdsz & Hsz & Hh & nx & Hn & Hp & Hc).
  simpl in Hc. subst nx.
  pose proof (heap_ok_lookup _ _ _ Hok Hn) as Hva.
  pose proof (heap_ok_lookup _ _ _ Hok Hp) as Hvd.
  assert (node_of x <> NULL) as Hnn by (unfold NULL; lia).
  assert (payload_of x <> NULL) as Hpn by (unfold NULL; lia).
  assert (payload_of x <> node_of x) as Hpa by congruence.
  assert (payload_of x <> sp) as Hpsp by congruence.
  assert (node_of x <> sp) as Hasp by congruence.
  rewrite <- Hh in Hn, Hnn, Hpa.
  eexists. split.
  { unfold stack_destroy. simpl destroy_loop.
    rewrite (bind_eq _ _ _ _ _ Hemp). cbn [negb].
    erewrite bind_eq;
      [|by apply (destroy_body_eq sp m s (payload_of x) NULL (BBytes (bytes_of x)));
          auto].
    unfold release at 1. simpl (NULL =? NULL). cbv iota.
    erewrite bind_eq;
      [|eapply stack_is_empty_head_null; [simpl; apply lookup_insert_eq|done]].
    reflexivity. }
  simpl. split.
  { pose proof (heap_ok_lookup _ _ _ Hok Hs) as Hvs.
    split. { apply heap_ok_insert; [done|]. apply heap_ok_insert; [done|].
             by apply heap_ok_delete. }
    split; [constructor|]. split; [constructor|].
    eexists. split; [apply lookup_insert_eq|]. simpl. repeat split; try done.
    rewrite Hsz. simpl. by apply size_wrap_small. }
  rewrite <- Hh.
  rewrite !lookup_insert_ne, lookup_delete_ne by congruence.
  rewrite Hn. eauto.
Qed.

End representation.

(** ** The loop of [stack_destroy] *)

Section destroy.

Lemma stack_peek_inv sp m p m' : stack_peek sp m = Ok p m' -> m' = m.
Proof.
  unfold stack_peek. intros H.
  split_bind H e m1 He. apply stack_is_empty_inv in He as [-> _].
  destruct e; [unfold ret in H; by simplify_eq|].
  split_bind H s m1 Hs. apply load_stack_inv in Hs as [-> _].
  split_bind H n m1 Hn. apply load_node_inv in Hn as [-> _].
  unfold ret in H. by simplify_eq.
Qed.

Lemma size_release_le p (h : gmap Z block) : (size (release p h) <= size h)%nat.
Proof.
  unfold release. destruct (p =? NULL); [done|].
  rewrite map_size_delete. destruct (h !! p); simpl; lia.
Qed.

(** What one turn of the loop leaves behind: the record keeps its element
    size, its head is the former [next], and unless that is null a block
    was freed. *)
Lemma destroy_body_inv sp m m' :
  destroy_body sp m = Ok tt m' ->
  exists s nx,
    blocks m !! sp = Some (BStack s) /\
    blocks m' !! sp =
      Some (BStack (Stack.mk (size_wrap (Stack.size s - 1)) (Stack.data_size s) nx)) /\
    (nx = NULL \/ (size (blocks m') < size (blocks m))%nat).
Proof.
  unfold destroy_body. intros H.
  split_bind H p m1 Hp. apply stack_peek_inv in Hp as ->.
  split_bind H u m1 Hf1. destruct u. apply free_release in Hf1 as Hb1.
  split_bind H s1 m2 Hs1. apply load_stack_inv in Hs1 as [-> Hs1].
  split_bind H n1 m2 Hn1. apply load_node_inv in Hn1 as [-> Hn1]. cbv zeta in H.
  split_bind H s2 m2 Hs2. apply load_stack_inv in Hs2 as [-> Hs2].
  split_bind H n2 m2 Hn2. apply load_node_inv in Hn2 as [-> Hn2].
  split_bind H u m2 Hsh. destruct u. apply set_head_inv in Hsh as (s3 & Hs3 & Hb2).
  split_bind H u m3 Hf2. destruct u.
  pose proof (free_release _ _ _ Hf2) as Hb3. apply free_inv in Hf2 as Hf2'.
  split_bind H s4 m4 Hs4. apply load_stack_inv in Hs4 as [-> Hs4].
  apply set_size_inv in H as (s5 & Hs5 & Hb4).
  rewrite Hs1 in Hs2, Hs3. injection Hs2 as <-. injection Hs3 as <-.
  rewrite Hn1 in Hn2. injection Hn2 as <-.
  rewrite Hs4 in Hs5. injection Hs5 as <-.
  pose proof Hs4 as Hlive4.
  rewrite Hb3 in Hs4. apply lookup_release_Some in Hs4.
  rewrite Hb2, lookup_insert_eq in Hs4. injection Hs4 as <-. simpl in Hb4.
  exists s1, (StackNode.next n1).
  split; [rewrite Hb1 in Hs1; by apply lookup_release_Some in Hs1|].
  split; [by rewrite Hb4, lookup_insert_eq|].
  destruct Hf2' as [[? _]|(Hnx & [bx Hbx] & Hdel)]; [by left|right].
  assert (size (blocks m2) <= size (blocks m))%nat as Hle.
  { rewrite Hb2, map_size_insert, Hs1, Hb1. apply size_release_le. }
  rewrite Hb4, map_size_insert, Hlive4, Hdel, map_size_delete, Hbx. simpl.
  destruct (size (blocks m2)) eqn:E; [|lia].
  apply map_size_empty_inv in E. by rewrite E in Hbx.
Qed.

Lemma bounded_bind {A B} (c : M A) (k : A -> M B) :
  bounded c -> (forall a, bounded (k a)) -> bounded (bind c k).
Proof.
  intros Hc Hk m. unfold bind. specialize (Hc m).
  destruct (c m); [apply Hk|done|done].
Qed.

Lemma bounded_ret {A} (a : A) : bounded (ret a).
Proof. done. Qed.

Lemma bounded_load_stack p : bounded (load_stack p).
Proof. intros m. unfold load_stack. by repeat case_match. Qed.

Lemma bounded_load_node p : bounded (load_node p).
Proof. intros m. unfold load_node. by repeat case_match. Qed.

Lemma bounded_store_stack p s : bounded (store_stack p s).
Proof. intros m. unfold store_stack. by repeat case_match. Qed.

Lemma bounded_free p : bounded (free p).
Proof. intros m. unfold free. by repeat case_match. Qed.

Lemma bounded_set_head p v : bounded (set_head p v).
Proof.
  apply bounded_bind; [apply bounded_load_stack|]. intros. apply bounded_store_stack.
Qed.

Lemma bounded_set_size p v : bounded (set_size p v).
Proof.
  apply bounded_bind; [apply bounded_load_stack|]. intros. apply bounded_store_stack.
Qed.

Lemma bounded_stack_is_empty sp : bounded (stack_is_empty sp).
Proof.
  unfold stack_is_empty. destruct (sp =? NULL); [apply bounded_ret|].
  apply bounded_bind; [apply bounded_load_stack|]. intros. apply bounded_ret.
Qed.

Lemma bounded_stack_peek sp : bounded (stack_peek sp).
Proof.
  apply bounded_bind; [apply bounded_stack_is_empty|]. intros [|]; [apply bounded_ret|].
  apply bounded_bind; [apply bounded_load_stack|]. intros.
  apply bounded_bind; [apply bounded_load_node|]. intros. apply bounded_ret.
Qed.

Lemma bounded_destroy_body sp : bounded (destroy_body sp).
Proof.
  unfold destroy_body.
  repeat first
    [ apply bounded_set_size | apply bounded_set_head | apply bounded_stack_peek
    | apply bounded_free | apply bounded_load_stack | apply bounded_load_node
    | apply bounded_bind; [|intros] ].
Qed.

Lemma destroy_loop_terminates sp fuel m :
  (size (blocks m) + 2 <= fuel)%nat -> destroy_loop fuel sp m <> Fuel.
Proof.
  revert m. induction fuel as [|fuel IH]; intros m Hfuel; [lia|].
  simpl. unfold bind at 1.
  pose proof (bounded_stack_is_empty sp m) as Hbe.
  destruct (stack_is_empty sp m) as [e m1| |] eqn:He; [|done|done].
  apply stack_is_empty_inv in He as He'. destruct He' as [-> _].
  destruct e; [done|]. simpl. unfold bind at 1.
  pose proof (bounded_destroy_body sp m) as Hbb.
  destruct (destroy_body sp m) as [[] m1| |] eqn:Hbody; [|done|done].
  apply destroy_body_inv in Hbody as (s & nx & Hs & Hs' & [->|Hlt]).
  - destruct fuel as [|fuel]; [lia|]. simpl.
    by rewrite (bind_eq _ _ _ _ _ (stack_is_empty_head_null _ _ _ Hs' eq_refl)).
  - apply IH. lia.
Qed.

(** [stack_destroy] never runs out of loop budget: its result is that of
    the C loop. *)
Lemma stack_destroy_terminates sp m : stack_destroy sp m <> Fuel.
Proof. unfold stack_destroy. apply destroy_loop_terminates. lia. Qed.

Lemma stack_destroy_inv sp m m' s :
  blocks m !! sp = Some (BStack s) ->
  stack_destroy sp m = Ok tt m' ->
  exists s', blocks m' !! sp = Some (BStack s') /\
             Stack.data_size s' = Stack.data_size s.
Proof.
  unfold stack_destroy. generalize (S (S (size (blocks m)))). intros fuel.
  revert m s. induction fuel as [|fuel IH]; intros m s Hs H; [done|].
  simpl in H. split_bind H e m1 He.
  apply stack_is_empty_inv in He as [-> _].
  destruct e; simpl in H.
  - unfold ret in H. simplify_eq. eauto.
  - split_bind H u m1 Hbody. destruct u.
    apply destroy_body_inv in Hbody as (s0 & nx & Hs0 & Hs' & _).
    rewrite Hs in Hs0. injection Hs0 as <-.
    destruct (IH _ _ Hs' H) as (s' & Hs'' & Hd). eauto.
Qed.

End destroy.

(** ** The element size is fixed *)

Section element_size.

Lemma stack_push_keeps_record sp data m b m' s :
  blocks m !! sp = Some (BStack s) ->
  stack_push sp data m = Ok b m' ->
  exists s', blocks m' !! sp = Some (BStack s') /\
             Stack.data_size s' = Stack.data_size s.
Proof.
  unfold stack_push. intros Hs H.
  destruct (Z.eqb_spec data NULL) as [->|Hdata].
  { unfold ret in H. simplify_eq. eauto. }
  split_bind H ok m1 Hal.
  apply stack_allocate_inv in Hal
    as [[-> Hb1]|(-> & s0 & a & d & h1 & Hs0 & Hva & Hfa & Hd & Hb1)]; simpl in H.
  { unfold ret in H. simplify_eq. rewrite Hb1. eauto. }
  rewrite Hs in Hs0. injection Hs0 as <-.
  split_bind H s1 m2 Hs1. apply load_stack_inv in Hs1 as [-> Hs1].
  split_bind H n m2 Hn. apply load_node_inv in Hn as [-> Hn].
  split_bind H u m2 Hcp. destruct u.
  apply memcpy_inv in Hcp as (src & dst & Hsrc & _ & _ & [[Hdst Hb2]|[Hdst Hb2]]).
  all: split_bind H s2 m3 Hs2; apply load_stack_inv in Hs2 as [-> Hs2].
  all: split_bind H u m3 Hsz; destruct u.
  all: apply set_size_inv in Hsz as (s3 & Hs3 & Hb3).
  all: unfold ret in H; injection H as <- <-.
  all: assert (StackNode.data n <> sp) as Hne by congruence.
  all: rewrite Hb2, lookup_insert_ne, Hb1, lookup_insert_eq in Hs3 by done.
  all: injection Hs3 as <-; simpl in Hb3.
  all: eexists; rewrite Hb3, lookup_insert_eq; split; [reflexivity|done].
Qed.

Lemma stack_emplace_keeps_record sp data m b m' s :
  blocks m !! sp = Some (BStack s) ->
  stack_emplace sp data m = Ok b m' ->
  exists s', blocks m' !! sp = Some (BStack s') /\
             Stack.data_size s' = Stack.data_size s.
Proof.
  intros Hs H.
  apply stack_emplace_inv in H as [[_ ->]|(_ & _ & s0 & a & d & h1 & Hs0 & _ & _ & _ & ->)];
    [eauto|].
  rewrite Hs in Hs0. injection Hs0 as <-.
  eexists. rewrite lookup_insert_eq. split; [reflexivity|done].
Qed.

Lemma stack_pop_keeps_record sp m b m' s :
  blocks m !! sp = Some (BStack s) ->
  stack_pop sp m = Ok b m' ->
  exists s', blocks m' !! sp = Some (BStack s') /\
             Stack.data_size s' = Stack.data_size s.
Proof.
  intros Hs H.
  apply stack_pop_inv in H as [[_ ->]|(_ & s0 & n & Hs0 & _ & _ & ->)]; [eauto|].
  rewrite Hs in Hs0. injection Hs0 as <-.
  eexists. rewrite lookup_insert_eq. split; [reflexivity|done].
Qed.

Lemma perform_keeps_record sp c m m' s :
  blocks m !! sp = Some (BStack s) ->
  perform sp c m = Ok tt m' ->
  exists s', blocks m' !! sp = Some (BStack s') /\
             Stack.data_size s' = Stack.data_size s.
Proof.
  intros Hs H. destruct c as [d|d| |]; simpl in H.
  - split_bind H b m1 Hop. unfold ret in H. simplify_eq.
    by apply (stack_push_keeps_record _ _ _ _ _ _ Hs Hop).
  - split_bind H b m1 Hop. unfold ret in H. simplify_eq.
    by apply (stack_emplace_keeps_record _ _ _ _ _ _ Hs Hop).
  - split_bind H b m1 Hop. unfold ret in H. simplify_eq.
    by apply (stack_pop_keeps_record _ _ _ _ _ Hs Hop).
  - by apply (stack_destroy_inv _ _ _ _ Hs H).
Qed.

Lemma perform_all_keeps_record sp cs m m' s :
  blocks m !! sp = Some (BStack s) ->
  perform_all sp cs m = Ok tt m' ->
  exists s', blocks m' !! sp = Some (BStack s') /\
             Stack.data_size s' = Stack.data_size s.
Proof.
  revert m s. induction cs as [|c cs IH]; intros m s Hs H; simpl in H.
  - unfold ret in H. simplify_eq. eauto.
  - split_bind H u m1 Hc. destruct u.
    destruct (perform_keeps_record _ _ _ _ _ Hs Hc) as (s1 & Hs1 & Hd1).
    destruct (IH _ _ Hs1 H) as (s2 & Hs2 & Hd2).
    exists s2. split; [done|congruence].
Qed.

End element_size.

(** ** Scripts of pushes and pops *)

Section scripts.

(** A balanced script run on a well-formed stack leaves a well-formed stack
    whose length is the old one plus the pushes minus the pops. *)
Lemma rep_run sp dsz ops : forall m l m',
  stack_rep (blocks m) sp dsz l ->
  balanced (length l) ops = true ->
  run sp ops m = Ok true m' ->
  exists l', stack_rep (blocks m') sp dsz l' /\
             Z.of_nat (length l') = Z.of_nat (length l) + count_push ops - count_pop ops.
Proof.
  induction ops as [|[d|] ops IH]; intros m l m' Hrep Hbal Hrun; simpl in *.
  - unfold ret in Hrun. simplify_eq. exists l. split; [done|lia].
  - split_bind Hrun b m1 Hpush. destruct b; [|unfold ret in Hrun; by simplify_eq].
    destruct (rep_push _ _ _ _ _ _ Hrep Hpush) as (x & Hrep1 & _).
    destruct (IH _ _ _ Hrep1 Hbal Hrun) as (l' & Hrep' & Hlen).
    exists l'. split; [done|]. simpl in Hlen. lia.
  - destruct l as [|x l]; [done|]. simpl in Hbal.
    destruct (rep_pop _ _ _ _ _ Hrep) as (m1 & Hpop & Hrep1 & _).
    rewrite (bind_eq _ _ _ _ _ Hpop) in Hrun.
    destruct (IH _ _ _ Hrep1 Hbal Hrun) as (l' & Hrep' & Hlen).
    exists l'. split; [done|]. simpl. lia.
Qed.

(** Pushing from live caller buffers stacks their contents, last on top. *)
Lemma rep_push_all sp dsz srcs : forall vs m l m',
  stack_rep (blocks m) sp dsz l ->
  Forall2 (fun d v => bytes_at (blocks m) d = Some v) srcs vs ->
  run sp (Push <$> srcs) m = Ok true m' ->
  exists l', stack_rep (blocks m') sp dsz (l' ++ l) /\
             bytes_of <$> l' = rev (take (Z.to_nat dsz) <$> vs).
Proof.
  induction srcs as [|d srcs IH]; intros vs m l m' Hrep Hsrc Hrun; simpl in *.
  - apply Forall2_nil_inv_l in Hsrc as ->.
    unfold ret in Hrun. simplify_eq. by exists [].
  - apply Forall2_cons_inv_l in Hsrc as (v & vs' & Hv & Hsrc & ->).
    split_bind Hrun b m1 Hpush. destruct b; [|unfold ret in Hrun; by simplify_eq].
    destruct (rep_push _ _ _ _ _ _ Hrep Hpush) as (x & Hrep1 & Hbytes & Hframe).
    destruct (rep_record _ _ _ _ Hrep) as (s & Hs & _).
    assert (Forall2 (fun d v => bytes_at (blocks m1) d = Some v) srcs vs') as Hsrc1.
    { eapply Forall2_impl; [exact Hsrc|]. intros d' v' Hd'. simpl in Hd'.
      apply bytes_at_Some in Hd'. apply bytes_at_Some.
      destruct Hd' as [Hd'|Hd']; [left|right]; (apply Hframe; [done|congruence]). }
    destruct (IH _ _ _ _ Hrep1 Hsrc1 Hrun) as (l' & Hrep' & Hl').
    exists (l' ++ [x]). split; [by rewrite <- app_assoc|].
    rewrite fmap_app, Hl'. simpl. by rewrite (Hbytes _ Hv).
Qed.

(** Draining a well-formed stack reads its elements top first and never
    goes wrong. *)
Lemma rep_drain sp dsz l : forall m,
  stack_rep (blocks m) sp dsz l ->
  exists m', drain sp (length l) m = Ok (Some <$> (bytes_of <$> l)) m' /\
             stack_rep (blocks m') sp dsz [].
Proof.
  induction l as [|x l IH]; intros m Hrep; simpl.
  - by exists m.
  - rewrite (bind_eq _ _ _ _ _ (rep_peek_value _ _ _ _ _ Hrep)).
    destruct (rep_pop _ _ _ _ _ Hrep) as (m1 & Hpop & Hrep1 & _).
    rewrite (bind_eq _ _ _ _ _ Hpop).
    destruct (IH _ Hrep1) as (m2 & Hdrain & Hrep2).
    rewrite (bind_eq _ _ _ _ _ Hdrain). by exists m2.
Qed.

End scripts.

(** ** The shape invariant and the reachable states *)

Section shape.

Lemma links_live h p l x :
  links h p l -> x ∈ l ->
  exists nx, h !! x.1 = Some (BNode (StackNode.mk x.2 nx)).
Proof.
  revert p. induction l as [|y l IH]; intros p Hl Hx; [by apply elem_of_nil in Hx|].
  destruct Hl as (_ & nx & Hn & Hl).
  apply elem_of_cons in Hx as [->|Hx]; eauto.
Qed.

Lemma links_frame h h' p l :
  links h p l -> (forall x, x ∈ l -> h' !! x.1 = h !! x.1) -> links h' p l.
Proof.
  revert p. induction l as [|y l IH]; intros p Hl Hf; [done|].
  destruct Hl as (-> & nx & Hn & Hl).
  split; [done|]. exists nx. rewrite (Hf y) by left. split; [done|].
  apply IH; [done|]. intros x Hx. apply Hf. by right.
Qed.

Lemma links_length_bound h p l :
  heap_ok h -> links h p l -> NoDup (l.*1) -> Z.of_nat (length l) <= SIZE_MAX.
Proof.
  intros Hh Hl Hnd.
  pose proof (NoDup_bounded_length (Z.to_nat SIZE_MAX) (l.*1) Hnd) as Hb.
  rewrite length_fmap in Hb.
  assert (0 <= SIZE_MAX) by (unfold SIZE_MAX; lia).
  enough (length l <= Z.to_nat SIZE_MAX)%nat by lia.
  apply Hb. intros a Ha.
  apply list_elem_of_fmap in Ha as (x & -> & Hx).
  destruct (links_live _ _ _ _ Hl Hx) as [nx Hlk].
  apply (heap_ok_lookup _ _ _ Hh) in Hlk. lia.
Qed.

Lemma links_not_node h p l d :
  links h p l -> (forall n, h !! d <> Some (BNode n)) -> d ∉ l.*1.
Proof.
  intros Hl Hd Hin. apply list_elem_of_fmap in Hin as (x & -> & Hx).
  destruct (links_live _ _ _ _ Hl Hx) as [nx Hlk]. by apply Hd in Hlk.
Qed.

Lemma wf_sp_not_null h sp l : stack_wf h sp l -> sp <> NULL.
Proof.
  intros (Hok & _ & _ & s & Hs & _) ->. by rewrite (heap_ok_null _ Hok) in Hs.
Qed.

Lemma wf_head h sp l s :
  stack_wf h sp l -> h !! sp = Some (BStack s) -> (Stack.head s = NULL <-> l = []).
Proof.
  intros (Hok & _ & _ & s' & Hs' & _ & Hl) Hs.
  rewrite Hs in Hs'. injection Hs' as <-.
  destruct l as [|x l]; simpl in Hl; [done|].
  destruct Hl as (Hh & nx & Hn & _). split; [|done].
  intros Hnull. rewrite Hnull in Hh. rewrite <- Hh in Hn.
  by rewrite (heap_ok_null _ Hok) in Hn.
Qed.

Lemma wf_is_empty m sp l :
  stack_wf (blocks m) sp l ->
  stack_is_empty sp m = Ok (bool_decide (l = [])) m.
Proof.
  intros Hwf. pose proof Hwf as (_ & _ & _ & s & Hs & _).
  rewrite (stack_is_empty_eq _ _ _ Hs (wf_sp_not_null _ _ _ Hwf)).
  f_equal. pose proof (wf_head _ _ _ _ Hwf Hs) as Hh.
  destruct (Z.eqb_spec (Stack.head s) NULL) as [E|E]; case_bool_decide as E';
    try done; [destruct E'|destruct E]; by apply Hh.
Qed.

Lemma wf_size m sp l :
  stack_wf (blocks m) sp l ->
  stack_size sp m = Ok (Z.of_nat (length l)) m.
Proof.
  intros Hwf. unfold stack_size.
  rewrite (bind_eq _ _ _ _ _ (wf_is_empty _ _ _ Hwf)).
  destruct Hwf as (_ & _ & _ & s & Hs & Hsz & _).
  case_bool_decide as Hl; simpl.
  - by rewrite Hl.
  - rewrite (bind_eq _ _ _ _ _ (load_stack_eq _ _ _ Hs)). unfold ret. by rewrite Hsz.
Qed.

Lemma wf_initialise dsz m0 sp m :
  heap_ok (blocks m0) -> sp <> NULL ->
  stack_initialise dsz m0 = Ok sp m ->
  stack_wf (blocks m) sp [].
Proof.
  intros Hok Hsp Hinit.
  apply stack_initialise_inv in Hinit as (Hv & Hfresh & ->); [|done].
  split; [by apply heap_ok_insert|].
  split; [constructor|]. split; [done|].
  eexists. rewrite lookup_insert_eq. by repeat split.
Qed.

(** A new node on top, whatever its payload pointer, as long as that is
    not a node of the stack. *)
Lemma wf_grow h h' sp l s a d dsz :
  stack_wf h sp l ->
  h !! sp = Some (BStack s) ->
  h !! a = None -> 0 < a <= SIZE_MAX ->
  d ∉ l.*1 ->
  heap_ok h' ->
  (forall y b, h !! y = Some b -> y <> sp -> h' !! y = Some b) ->
  h' !! a = Some (BNode (StackNode.mk d (Stack.head s))) ->
  h' !! sp = Some (BStack (Stack.mk (size_wrap (Stack.size s + 1)) dsz a)) ->
  stack_wf h' sp ((a, d) :: l).
Proof.
  intros (Hok & Hnd & Hclear & s0 & Hs0 & Hsz & Hl) Hs Hfa Hva Hd Hok' Hframe Ha' Hs'.
  rewrite Hs in Hs0. injection Hs0 as <-.
  assert (links h' (Stack.head s) l) as Hl'.
  { apply (links_frame h); [done|]. intros x Hx.
    destruct (links_live _ _ _ _ Hl Hx) as (nx & Hn).
    rewrite Hn. apply Hframe; [done|congruence]. }
  assert (a ∉ l.*1) as Hna.
  { intros Hin. apply list_elem_of_fmap in Hin as (x & -> & Hx).
    destruct (links_live _ _ _ _ Hl Hx) as [nx Hb]. congruence. }
  assert (NoDup (((a, d) :: l).*1)) as Hnd' by (by constructor).
  assert (links h' a ((a, d) :: l)) as Hl''.
  { split; [done|]. by exists (Stack.head s). }
  pose proof (links_length_bound _ _ _ Hok' Hl'' Hnd') as Hlen.
  split; [done|]. split; [done|]. split; [done|].
  eexists. split; [done|]. simpl. split; [|done].
  rewrite Hsz, size_wrap_small; simpl in Hlen; lia.
Qed.

Lemma wf_push m sp l data b m' :
  stack_wf (blocks m) sp l ->
  stack_push sp data m = Ok b m' ->
  exists l', stack_wf (blocks m') sp l'.
Proof.
  intros Hwf Hpush. pose proof Hwf as (Hok & _ & _ & s0 & Hs0 & _ & Hl).
  apply stack_push_inv in Hpush
      as [[_ Hb]|(_ & Hdata & s & a & d & bs & Hs & Hva & Hfa & Hvd & Hfd & Hda & _ & Hb)];
    [exists l; by rewrite Hb| |by apply heap_ok_null].
  rewrite Hs in Hs0. injection Hs0 as <-.
  assert (sp <> a) as Hspa by congruence.
  assert (sp <> d) as Hspd by congruence.
  exists ((a, d) :: l).
  apply (wf_grow (blocks m) _ _ _ s _ _ (Stack.data_size s)); try done.
  - intros Hin. apply list_elem_of_fmap in Hin as (x & -> & Hx).
    destruct (links_live _ _ _ _ Hl Hx) as [nx Hlk]. congruence.
  - rewrite Hb. repeat apply heap_ok_insert; try done.
    by apply (heap_ok_lookup _ _ _ Hok Hs).
  - intros y b' Hy Hysp. rewrite Hb.
    rewrite !lookup_insert_ne; [done|..]; congruence.
  - rewrite Hb. by rewrite lookup_insert_ne, lookup_insert_eq.
  - rewrite Hb. by rewrite lookup_insert_eq.
Qed.

Lemma wf_emplace m sp l data b m' :
  stack_wf (blocks m) sp l ->
  (forall n, blocks m !! data <> Some (BNode n)) ->
  stack_emplace sp data m = Ok b m' ->
  exists l', stack_wf (blocks m') sp l'.
Proof.
  intros Hwf Hnode Hemp. pose proof Hwf as (Hok & _ & _ & s0 & Hs0 & _ & Hl).
  apply stack_emplace_inv in Hemp
      as [[_ Hb]|(_ & Hdata & s & a & d & h1 & Hs & Hva & Hfa & Hd & Hb)];
    [exists l; by rewrite Hb|].
  rewrite Hs in Hs0. injection Hs0 as <-.
  assert (sp <> a) as Hspa by congruence.
  assert (heap_ok h1 /\ forall y b, blocks m !! y = Some b -> h1 !! y = Some b) as [Hok1 Hh1].
  { destruct Hd as [[_ ->]|(Hvd & Hda & Hfd & ->)]; [done|].
    split; [by apply heap_ok_insert|].
    intros y b' Hy. rewrite lookup_insert_ne; [done|congruence]. }
  exists ((a, data) :: l).
  apply (wf_grow (blocks m) _ _ _ s _ _ (Stack.data_size s)); try done.
  - by apply (links_not_node _ _ _ _ Hl).
  - rewrite Hb. repeat apply heap_ok_insert; try done.
    by apply (heap_ok_lookup _ _ _ Hok Hs).
  - intros y b' Hy Hysp. rewrite Hb.
    rewrite !lookup_insert_ne; [by apply Hh1|..]; congruence.
  - rewrite Hb. by rewrite lookup_insert_ne, lookup_insert_eq.
  - rewrite Hb. by rewrite lookup_insert_eq.
Qed.

Lemma wf_pop m sp l b m' :
  stack_wf (blocks m) sp l ->
  stack_pop sp m = Ok b m' ->
  exists l', stack_wf (blocks m') sp l'.
Proof.
  intros Hwf Hpop. pose proof Hwf as (Hok & Hnd & Hclear & s0 & Hs0 & Hsz & Hl).
  apply stack_pop_inv in Hpop as [[_ ->]|(_ & s & n & Hs & Hh & Hn & Hb)]; [by exists l|].
  rewrite Hs in Hs0. injection Hs0 as <-.
  pose proof (links_length_bound _ _ _ Hok Hl Hnd) as Hlen.
  destruct l as [|x l]; [done|]. destruct Hl as (Hhx & nx & Hx & Hl).
  rewrite Hhx, Hx in Hn. injection Hn as <-. simpl in Hb.
  destruct Hclear as [Hxd Hclear]. apply NoDup_cons in Hnd as [Hxa Hnd].
  exists l. split.
  { rewrite Hb. apply heap_ok_insert; [by apply (heap_ok_lookup _ _ _ Hok Hs)|].
    unfold release. repeat case_match; repeat apply heap_ok_delete; done. }
  split; [done|]. split; [done|].
  eexists. split; [by rewrite Hb, lookup_insert_eq|]. simpl. split.
  { simpl in Hsz, Hlen. rewrite Hsz, size_wrap_small; lia. }
  apply (links_frame (blocks m)); [done|]. intros y Hy.
  destruct (links_live _ _ _ _ Hl Hy) as (ny & Hyn).
  rewrite Hb, Hhx.
  rewrite lookup_insert_ne, !lookup_release_ne; [done|..]; try congruence.
  - intros E. apply Hxd. rewrite <- E. apply list_elem_of_fmap. eauto.
  - intros E. apply Hxa. rewrite <- E. apply list_elem_of_fmap. eauto.
Qed.

Lemma stack_peek_inv_node sp m p m' :
  stack_peek sp m = Ok p m' ->
  m' = m /\
  (p = NULL \/
   exists s n, blocks m !! sp = Some (BStack s) /\
               blocks m !! Stack.head s = Some (BNode n) /\ p = StackNode.data n).
Proof.
  unfold stack_peek. intros H.
  split_bind H e m1 He. apply stack_is_empty_inv in He as [-> _].
  destruct e; [unfold ret in H; simplify_eq; auto|].
  split_bind H s m1 Hs. apply load_stack_inv in Hs as [-> Hs].
  split_bind H n m1 Hn. apply load_node_inv in Hn as [-> Hn].
  unfold ret in H. simplify_eq. eauto 10.
Qed.

(** The heap one turn of the loop of [stack_destroy] leaves. *)
Lemma destroy_body_heap sp m m' :
  destroy_body sp m = Ok tt m' ->
  exists s n p,
    blocks m !! sp = Some (BStack s) /\
    blocks m !! Stack.head s = Some (BNode n) /\
    (p = NULL \/ p = StackNode.data n) /\
    blocks m' =
      <[sp := BStack (Stack.mk (size_wrap (Stack.size s - 1)) (Stack.data_size s)
                               (StackNode.next n))]>
        (release (StackNode.next n) (release p (blocks m))).
Proof.
  unfold destroy_body. intros H.
  split_bind H p m1 Hp. apply stack_peek_inv_node in Hp as [-> Hp].
  split_bind H u m1 Hf1. destruct u. apply free_release in Hf1 as Hb1.
  split_bind H s1 m2 Hs1. apply load_stack_inv in Hs1 as [-> Hs1].
  split_bind H n1 m2 Hn1. apply load_node_inv in Hn1 as [-> Hn1]. cbv zeta in H.
  split_bind H s2 m2 Hs2. apply load_stack_inv in Hs2 as [-> Hs2].
  split_bind H n2 m2 Hn2. apply load_node_inv in Hn2 as [-> Hn2].
  split_bind H u m2 Hsh. destruct u. apply set_head_inv in Hsh as (s3 & Hs3 & Hb2).
  split_bind H u m3 Hf2. destruct u. apply free_release in Hf2 as Hb3.
  split_bind H s4 m4 Hs4. apply load_stack_inv in Hs4 as [-> Hs4].
  apply set_size_inv in H as (s5 & Hs5 & Hb4).
  rewrite Hs1 in Hs2, Hs3. injection Hs2 as <-. injection Hs3 as <-.
  rewrite Hn1 in Hn2. injection Hn2 as <-.
  rewrite Hs4 in Hs5. injection Hs5 as <-.
  rewrite Hb3 in Hs4. apply lookup_release_Some in Hs4.
  rewrite Hb2, lookup_insert_eq in Hs4. injection Hs4 as <-. simpl in Hb4.
  rewrite Hb1 in Hs1, Hn1.
  apply lookup_release_Some in Hs1. apply lookup_release_Some in Hn1.
  exists s1, n1, p. split; [done|]. split; [done|]. split.
  { destruct Hp as [?|(s & n & Hs & Hn & ->)]; [by left|right].
    rewrite Hs1 in Hs. injection Hs as <-. rewrite Hn1 in Hn. by injection Hn as <-. }
  rewrite Hb4, Hb3, Hb2, Hb1.
  apply map_eq. intros i.
  destruct (decide (i = sp)) as [->|Hi]; [by rewrite !lookup_insert_eq|].
  rewrite !(lookup_insert_ne _ sp) by done.
  unfold release. repeat case_match;
    repeat (rewrite lookup_insert || rewrite lookup_delete);
    repeat case_decide; simplify_eq; done.
Qed.

(** A loop turn that starts with a head that is not allocated reads it. *)
Lemma destroy_loop_dangling fuel sp m s :
  sp <> NULL ->
  blocks m !! sp = Some (BStack s) ->
  Stack.head s <> NULL ->
  blocks m !! Stack.head s = None ->
  destroy_loop (S fuel) sp m = UB.
Proof.
  intros Hsp Hs Hh Hn. simpl.
  rewrite (bind_eq _ _ _ _ _ (stack_is_empty_eq _ _ _ Hs Hsp)).
  destruct (Z.eqb_spec (Stack.head s) NULL); [done|]. cbn [negb].
  apply bind_UB. unfold destroy_body. apply bind_UB. unfold stack_peek.
  rewrite (bind_eq _ _ _ _ _ (stack_is_empty_eq _ _ _ Hs Hsp)).
  destruct (Z.eqb_spec (Stack.head s) NULL); [done|].
  rewrite (bind_eq _ _ _ _ _ (load_stack_eq _ _ _ Hs)).
  apply bind_UB. by apply load_node_dangling.
Qed.

(** [stack_destroy] returns only on stacks of at most one element, and
    then leaves an empty stack. *)
Lemma wf_destroy m sp l m' :
  stack_wf (blocks m) sp l ->
  stack_destroy sp m = Ok tt m' ->
  (length l <= 1)%nat /\ stack_wf (blocks m') sp [].
Proof.
  intros Hwf Hdes. pose proof (wf_sp_not_null _ _ _ Hwf) as Hsp.
  unfold stack_destroy in Hdes.
  remember (S (size (blocks m))) as fuel eqn:Hfuel. simpl in Hdes.
  rewrite (bind_eq _ _ _ _ _ (wf_is_empty _ _ _ Hwf)) in Hdes.
  destruct l as [|x l].
  { simpl in Hdes. unfold ret in Hdes. simplify_eq. split; [simpl; lia|done]. }
  rewrite bool_decide_eq_false_2 in Hdes by done. cbn [negb] in Hdes.
  split_bind Hdes u m1 Hbody. destruct u.
  apply destroy_body_heap in Hbody as (s & n & p & Hs & Hn & Hp & Hb).
  destruct Hwf as (Hok & Hnd & Hclear & s0 & Hs0 & Hsz & Hhx & nx & Hx & Hl).
  rewrite Hs in Hs0. injection Hs0 as <-.
  rewrite Hhx, Hx in Hn. injection Hn as <-. simpl in Hb, Hp.
  pose proof (heap_ok_lookup _ _ _ Hok Hs) as Hvs.
  assert (heap_ok (blocks m1)) as Hok1.
  { rewrite Hb. apply heap_ok_insert; [done|].
    unfold release. repeat case_match; repeat apply heap_ok_delete; done. }
  destruct l as [|y l].
  - simpl in Hl. subst nx fuel. simpl in Hdes.
    erewrite bind_eq in Hdes;
      [|eapply stack_is_empty_head_null; [rewrite Hb; apply lookup_insert_eq|done]].
    cbn [negb] in Hdes. unfold ret in Hdes. injection Hdes as <-.
    split; [simpl; lia|].
    split; [done|]. split; [constructor|]. split; [done|].
    eexists. split; [rewrite Hb; apply lookup_insert_eq|]. simpl. split; [|done].
    rewrite Hsz. simpl. by apply size_wrap_small.
  - destruct Hl as (-> & ny & Hy & _). subst fuel.
    pose proof (heap_ok_lookup _ _ _ Hok Hy) as Hvy.
    assert (y.1 <> NULL) as Hyn by (unfold NULL; lia).
    assert (y.1 <> sp) as Hysp by congruence.
    rewrite (destroy_loop_dangling _ sp m1
               (Stack.mk (size_wrap (Stack.size s - 1)) (Stack.data_size s) y.1)) in Hdes;
      [done|done| |done|].
    + rewrite Hb. apply lookup_insert_eq.
    + simpl. rewrite Hb, lookup_insert_ne by done.
      unfold release at 1. destruct (Z.eqb_spec y.1 NULL); [done|].
      apply lookup_delete_eq.
Qed.

Lemma reachable_wf sp m : reachable sp m -> exists l, stack_wf (blocks m) sp l.
Proof.
  induction 1 as [dsz m0 m Hok Hsp Hinit
                 |m data b m' _ (l & Hwf) Hpush
                 |m data b m' _ (l & Hwf) Hbuf Hemp
                 |m b m' _ (l & Hwf) Hpop
                 |m m' _ (l & Hwf) Hdes].
  - exists []. by apply (wf_initialise dsz m0).
  - by apply (wf_push _ _ _ _ _ _ Hwf Hpush).
  - by apply (wf_emplace _ _ _ _ _ _ Hwf Hbuf Hemp).
  - by apply (wf_pop _ _ _ _ _ Hwf Hpop).
  - exists []. by apply (wf_destroy _ _ _ _ Hwf Hdes).
Qed.

(** With two elements or more the first turn of the loop frees the node
    below the top one and makes it the head, and the second turn reads it:
    [stack_destroy] is undefined. *)
Lemma destroy_two_or_more_undefined m sp l :
  stack_wf (blocks m) sp l -> (2 <= length l)%nat -> stack_destroy sp m = UB.
Proof.
  intros Hwf Hlen. pose proof (stack_destroy_terminates sp m) as Hterm.
  destruct (stack_destroy sp m) as [[] m'| |] eqn:Hdes; [|done|done].
  apply (wf_destroy _ _ _ _ Hwf) in Hdes as [? _]. lia.
Qed.

End shape.

(** ** The test program *)

(** The scenario of [main]: sizes 2, 1, 0, 1, 0 and tops 1000, 500, none,
    500, none. *)
Example main_scenario :
  value_of (main_body (caller_mem [Some 1; Some 2; Some 3; Some 4; Some 5; Some 6; Some 7; Some 8]))
  = Some (true, true,
          [(4, 2, Some int_1000); (4, 1, Some int_500); (4, 0, None);
           (4, 1, Some int_500); (4, 0, None)]).
Proof. vm_compute. reflexivity. Qed.

(** An emplaced local of the caller: [stack_pop] hands it to [free], which
    is undefined for storage that [malloc] did not return. *)
Example pop_of_emplaced_local :
  value_of (stack_emplace 1 100 (fresh_stack [Some 2; Some 3])) = Some true /\
  stack_pop 1 (after (stack_emplace 1 100) (fresh_stack [Some 2; Some 3])) = UB.
Proof. split; vm_compute; reflexivity. Qed.

Lemma caller_heap_ok : heap_ok caller_heap.
Proof.
  unfold caller_heap. repeat (apply heap_ok_insert; [unfold SIZE_MAX; lia|]).
  apply map_Forall_empty.
Qed.

Lemma fresh_stack_heap_ok answers : heap_ok (blocks (fresh_stack answers)).
Proof.
  unfold fresh_stack, after. simpl.
  repeat (apply heap_ok_insert; [unfold SIZE_MAX; lia|]).
  apply map_Forall_empty.
Qed.

(** ** Properties of the stack *)

Section properties.

(** C1. LIFO order: after pushing the values of the buffers [srcs] on a
    freshly created stack, with every push reporting success, as many
    rounds of peek-then-pop read these values back last pushed first, and
    none of these calls goes wrong. *)
Theorem lifo_order dsz m0 sp m1 srcs vs m2 :
  heap_ok (blocks m0) -> sp <> NULL ->
  stack_initialise dsz m0 = Ok sp m1 ->
  Forall2 (fun d v => bytes_at (blocks m1) d = Some v) srcs vs ->
  run sp (Push <$> srcs) m1 = Ok true m2 ->
  exists m3, drain sp (length srcs) m2
             = Ok (Some <$> rev (take (Z.to_nat dsz) <$> vs)) m3.
Proof.
  intros Hok Hsp Hinit Hsrc Hrun.
  pose proof (rep_initialise _ _ _ _ Hok Hsp Hinit) as Hrep.
  destruct (rep_push_all _ _ _ _ _ _ _ Hrep Hsrc Hrun) as (l & Hrep2 & Hl).
  rewrite app_nil_r in Hrep2.
  destruct (rep_drain _ _ _ _ Hrep2) as (m3 & Hdrain & _).
  exists m3. rewrite <- Hl, <- Hdrain. f_equal.
  apply (f_equal length) in Hl.
  rewrite length_fmap, length_rev, length_fmap in Hl.
  rewrite Hl. symmetry. by apply Forall2_length in Hsrc.
Qed.

Lemma lifo_order_witness :
  exists m3,
    drain 1 2 (after (run 1 [Push 100; Push 101]) (fresh_stack [Some 2; Some 3; Some 4; Some 5]))
    = Ok [Some int_1000; Some int_500] m3.
Proof.
  apply (lifo_order 4 (caller_mem [Some 1; Some 2; Some 3; Some 4; Some 5]) 1
           (fresh_stack [Some 2; Some 3; Some 4; Some 5]) [100; 101] [int_500; int_1000]).
  - apply caller_heap_ok.
  - done.
  - vm_compute. reflexivity.
  - repeat constructor.
  - vm_compute. reflexivity.
Defined.

(** C2. In every state a stack reaches from its creation through calls of
    push, emplace (of a buffer that is not a stack node), pop and destroy
    that return, the count is zero exactly when the head is null, the chain
    from the head has exactly count nodes, and [stack_is_empty] answers
    true exactly when [stack_size] answers 0. *)
Theorem reachable_count_head sp m :
  reachable sp m ->
  exists s l,
    blocks m !! sp = Some (BStack s) /\
    (Stack.size s = 0 <-> Stack.head s = NULL) /\
    links (blocks m) (Stack.head s) l /\
    NoDup (l.*1) /\
    Stack.size s = Z.of_nat (length l) /\
    exists e n, stack_is_empty sp m = Ok e m /\
                stack_size sp m = Ok n m /\
                (e = true <-> n = 0).
Proof.
  intros Hreach. destruct (reachable_wf _ _ Hreach) as (l & Hwf).
  pose proof (wf_is_empty _ _ _ Hwf) as Hemp.
  pose proof (wf_size _ _ _ Hwf) as Hsize.
  pose proof Hwf as (_ & Hnd & _ & s & Hs & Hsz & Hl).
  pose proof (wf_head _ _ _ _ Hwf Hs) as Hh.
  exists s, l. repeat (split; [try done|]).
  - intros H0. apply Hh. destruct l; [done|]. simpl in Hsz. lia.
  - intros H0. apply Hh in H0 as ->. by rewrite Hsz.
  - exists (bool_decide (l = [])), (Z.of_nat (length l)). repeat split; try done.
    + intros Hl0. apply bool_decide_eq_true in Hl0 as ->. done.
    + intros Hl0. apply bool_decide_eq_true. destruct l; [done|]. simpl in Hl0. lia.
Qed.

Lemma reachable_count_head_witness :
  exists s l,
    blocks (after (stack_emplace 1 102) (after (stack_push 1 100) (fresh_stack [Some 2; Some 3; Some 4; Some 5])))
      !! 1 = Some (BStack s) /\
    (Stack.size s = 0 <-> Stack.head s = NULL) /\
    links (blocks (after (stack_emplace 1 102)
                         (after (stack_push 1 100) (fresh_stack [Some 2; Some 3; Some 4; Some 5]))))
          (Stack.head s) l /\
    NoDup (l.*1) /\
    Stack.size s = Z.of_nat (length l) /\
    exists e n,
      stack_is_empty 1 (after (stack_emplace 1 102)
                              (after (stack_push 1 100) (fresh_stack [Some 2; Some 3; Some 4; Some 5])))
      = Ok e (after (stack_emplace 1 102)
                    (after (stack_push 1 100) (fresh_stack [Some 2; Some 3; Some 4; Some 5]))) /\
      stack_size 1 (after (stack_emplace 1 102)
                          (after (stack_push 1 100) (fresh_stack [Some 2; Some 3; Some 4; Some 5])))
      = Ok n (after (stack_emplace 1 102)
                    (after (stack_push 1 100) (fresh_stack [Some 2; Some 3; Some 4; Some 5]))) /\
      (e = true <-> n = 0).
Proof.
  apply reachable_count_head.
  apply (reach_emplace 1 (after (stack_push 1 100) (fresh_stack [Some 2; Some 3; Some 4; Some 5]))
           102 true).
  - apply (reach_push 1 (fresh_stack [Some 2; Some 3; Some 4; Some 5]) 100 true).
    + apply (reach_initialise 1 4 (caller_mem [Some 1; Some 2; Some 3; Some 4; Some 5])).
      * apply caller_heap_ok.
      * done.
      * vm_compute. reflexivity.
    + vm_compute. reflexivity.
  - intros n. vm_compute. discriminate.
  - vm_compute. reflexivity.
Defined.

(** Counterexample to C2 with no condition on the emplaced buffer: the
    chain part of the claim fails. On a stack of one element, emplacing
    the head node itself and popping once both return true, as did the
    creation and the push before them; the pop frees the emplaced
    pointer, which is the node below the top. The count is then 1 and
    the head a non-null pointer to a freed node: no chain of nodes
    starts there. *)
Lemma emplaced_node_is_freed :
  stack_initialise 4 (caller_mem [Some 1; Some 2; Some 3; Some 4; Some 5])
  = Ok 1 (fresh_stack [Some 2; Some 3; Some 4; Some 5]) /\
  stack_push 1 100 (fresh_stack [Some 2; Some 3; Some 4; Some 5]) = Ok true one_element /\
  stack_emplace 1 2 one_element = Ok true (after (stack_emplace 1 2) one_element) /\
  stack_pop 1 (after (stack_emplace 1 2) one_element) = Ok true dangling_head /\
  blocks dangling_head !! 1 = Some (BStack (Stack.mk 1 4 2)) /\
  blocks dangling_head !! 2 = None /\
  stack_size 1 dangling_head = Ok 1 dangling_head /\
  ~ (exists s l, blocks dangling_head !! 1 = Some (BStack s) /\
                 links (blocks dangling_head) (Stack.head s) l /\
                 Stack.size s = Z.of_nat (length l)).
Proof.
  assert (blocks dangling_head !! 1 = Some (BStack (Stack.mk 1 4 2))) as Hs
      by (vm_compute; reflexivity).
  assert (blocks dangling_head !! 2 = None) as Hfreed by (vm_compute; reflexivity).
  repeat (split; [vm_compute; reflexivity|]).
  intros (s & l & Hs' & Hl & _). rewrite Hs in Hs'. injection Hs' as <-.
  cbn [Stack.head] in Hl. destruct l as [|x l]; simpl in Hl.
  - discriminate Hl.
  - destruct Hl as (Hx & nx & Hn & _). rewrite <- Hx, Hfreed in Hn. discriminate Hn.
Qed.

(** C4. On a freshly created stack, after a script of pushes that all
    report success and of pops that each follow a push they undo,
    [stack_size] returns the number of pushes minus the number of pops and
    [stack_is_empty] returns true exactly when that difference is zero. *)
Theorem size_after_pushes_and_pops dsz m0 sp m1 ops m2 :
  heap_ok (blocks m0) -> sp <> NULL ->
  stack_initialise dsz m0 = Ok sp m1 ->
  balanced 0 ops = true ->
  run sp ops m1 = Ok true m2 ->
  stack_size sp m2 = Ok (count_push ops - count_pop ops) m2 /\
  stack_is_empty sp m2 = Ok (count_push ops - count_pop ops =? 0) m2.
Proof.
  intros Hok Hsp Hinit Hbal Hrun.
  pose proof (rep_initialise _ _ _ _ Hok Hsp Hinit) as Hrep.
  destruct (rep_run _ _ _ _ _ _ Hrep Hbal Hrun) as (l & Hrep2 & Hlen).
  simpl in Hlen.
  replace (count_push ops - count_pop ops) with (Z.of_nat (length l)) by lia.
  split; [by apply (rep_size _ _ dsz)|].
  rewrite (rep_is_empty _ _ _ _ Hrep2). f_equal.
  by destruct l.
Qed.

Lemma size_after_pushes_and_pops_witness :
  stack_size 1 (after (run 1 [Push 100; Pop; Push 101; Push 100; Pop])
                      (fresh_stack [Some 2; Some 3; Some 4; Some 5; Some 6; Some 7]))
  = Ok 1 (after (run 1 [Push 100; Pop; Push 101; Push 100; Pop])
                (fresh_stack [Some 2; Some 3; Some 4; Some 5; Some 6; Some 7])) /\
  stack_is_empty 1 (after (run 1 [Push 100; Pop; Push 101; Push 100; Pop])
                          (fresh_stack [Some 2; Some 3; Some 4; Some 5; Some 6; Some 7]))
  = Ok false (after (run 1 [Push 100; Pop; Push 101; Push 100; Pop])
                    (fresh_stack [Some 2; Some 3; Some 4; Some 5; Some 6; Some 7])).
Proof.
  apply (size_after_pushes_and_pops 4
           (caller_mem [Some 1; Some 2; Some 3; Some 4; Some 5; Some 6; Some 7]) 1
           (fresh_stack [Some 2; Some 3; Some 4; Some 5; Some 6; Some 7])
           [Push 100; Pop; Push 101; Push 100; Pop]).
  - apply caller_heap_ok.
  - done.
  - vm_compute. reflexivity.
  - reflexivity.
  - vm_compute. reflexivity.
Defined.

(** Whenever create, push or emplace reports failure, no block of the heap
    has changed. *)
Lemma reported_failure_unchanged sp data dsz m m' :
  (stack_initialise dsz m = Ok NULL m' -> blocks m' = blocks m) /\
  (stack_push sp data m = Ok false m' -> blocks m' = blocks m) /\
  (stack_emplace sp data m = Ok false m' -> blocks m' = blocks m).
Proof.
  split; [|split].
  - intros H.
    destruct (stack_initialise_total dsz m) as (p & m1 & H1 & _ & _ & [[_ Hb]|(Hp & _)]);
      rewrite H in H1; simplify_eq; [done|unfold NULL in Hp; lia].
  - unfold stack_push. intros H.
    destruct (Z.eqb_spec data NULL); [unfold ret in H; by simplify_eq|].
    split_bind H ok m1 Hal.
    apply stack_allocate_inv in Hal as [[-> Hb1]|(-> & _)]; simpl in H.
    { unfold ret in H. by simplify_eq. }
    split_bind H s1 m2 Hs1. split_bind H n1 m3 Hn1. split_bind H u m4 Hcp.
    split_bind H s2 m5 Hs2. split_bind H u2 m6 Hsz. unfold ret in H. by simplify_eq.
  - intros H. by apply stack_emplace_inv in H as [[_ Hb]|[? _]].
Qed.

(** When the allocator grants the node but refuses the payload,
    [stack_allocate] still reports success and [stack_push] copies to the
    null pointer. *)
Lemma stack_push_payload_refused sp data m s a rest :
  heap_ok (blocks m) ->
  blocks m !! sp = Some (BStack s) ->
  data <> NULL ->
  0 < a <= SIZE_MAX -> blocks m !! a = None ->
  oracle m = Some a :: None :: rest ->
  stack_push sp data m = UB.
Proof.
  intros Hok Hs Hdata Hva Hfa Ho.
  assert (a <> sp) as Hasp by congruence.
  assert (a <> NULL) as Han by (unfold NULL; lia).
  pose proof (heap_ok_null _ Hok) as Hnull.
  assert (sp <> NULL) as Hsp by congruence.
  assert (stack_allocate sp m =
          Ok true (mkmem (<[sp := BStack (Stack.mk (Stack.size s) (Stack.data_size s) a)]>
                            (<[a := BNode (StackNode.mk NULL (Stack.head s))]>
                               (<[a := BBytes (replicate (Z.to_nat STACK_NODE_SIZE) None)]>
                                  (blocks m))))
                         rest)) as Hal.
  { unfold stack_allocate, bind at 1, malloc. rewrite Ho, Hfa.
    apply valid_addr_spec in Hva as ->.
    destruct (Z.eqb_spec a NULL); [done|].
    erewrite bind_eq; [|apply load_stack_eq; simpl; by rewrite lookup_insert_ne].
    unfold bind at 1. simpl.
    unfold bind at 1, store_node. simpl. rewrite lookup_insert_eq. simpl.
    erewrite bind_eq; [|apply set_head_eq; simpl; by rewrite !lookup_insert_ne].
    done. }
  unfold stack_push. destruct (Z.eqb_spec data NULL); [done|].
  rewrite (bind_eq _ _ _ _ _ Hal). simpl.
  erewrite bind_eq; [|apply load_stack_eq; simpl; apply lookup_insert_eq].
  erewrite bind_eq;
    [|apply load_node_eq; simpl; rewrite lookup_insert_ne by done; apply lookup_insert_eq].
  apply bind_UB. unfold memcpy. simpl.
  rewrite !(lookup_insert_ne _ _ NULL), Hnull by done.
  by repeat case_match.
Qed.

(** C3. Failure of the payload allocation is not reported: on a fresh stack
    of [int]s whose node allocation is granted and whose payload allocation
    is refused, [stack_push] is undefined (it copies to the null pointer,
    after the head was redirected), and [stack_emplace] reports success. *)
Theorem payload_allocation_failure_unreported :
  stack_push 1 100 (fresh_stack [Some 2; None]) = UB /\
  value_of (stack_emplace 1 102 (fresh_stack [Some 2; None])) = Some true.
Proof. split; vm_compute; reflexivity. Qed.




(** C6. [stack_destroy] does not release every node: on a stack of two
    elements it is undefined (the second turn of the loop reads the node
    the first turn freed), and on a stack of one element it ends with the
    node at address 2 still allocated. *)
Theorem destroy_frees_wrong_node :
  stack_destroy 1 (after (run 1 [Push 100; Push 101])
                         (fresh_stack [Some 2; Some 3; Some 4; Some 5])) = UB /\
  is_Some (blocks (after (stack_destroy 1)
                         (after (stack_push 1 100) (fresh_stack [Some 2; Some 3]))) !! 2).
Proof. split; [vm_compute; reflexivity|]. vm_compute. eauto. Qed.

Lemma pop_peek_head_null m sp s :
  blocks m !! sp = Some (BStack s) -> Stack.head s = NULL ->
  stack_pop sp m = Ok false m /\ stack_peek sp m = Ok NULL m.
Proof.
  intros Hs Hh. unfold stack_pop, stack_peek.
  by rewrite !(bind_eq _ _ _ _ _ (stack_is_empty_head_null _ _ _ Hs Hh)).
Qed.

(** C7. On an empty stack, that is one whose head is null, and in
    particular on a freshly created one, [stack_pop] returns false and
    leaves the memory as it is, and [stack_peek] returns the null pointer;
    neither is undefined. *)
Theorem pop_peek_on_empty m sp :
  (exists s, blocks m !! sp = Some (BStack s) /\ Stack.head s = NULL) \/
  (exists dsz m0, sp <> NULL /\ stack_initialise dsz m0 = Ok sp m) ->
  stack_pop sp m = Ok false m /\ stack_peek sp m = Ok NULL m.
Proof.
  intros [(s & Hs & Hh)|(dsz & m0 & Hsp & Hinit)].
  - by apply (pop_peek_head_null _ _ s).
  - apply stack_initialise_inv in Hinit as (_ & _ & Hb); [|done].
    apply (pop_peek_head_null _ _ (Stack.mk 0 dsz NULL)); [|done].
    rewrite Hb. apply lookup_insert_eq.
Qed.

Lemma pop_peek_on_empty_witness :
  stack_pop 1 (fresh_stack []) = Ok false (fresh_stack []) /\
  stack_peek 1 (fresh_stack []) = Ok NULL (fresh_stack []).
Proof.
  apply pop_peek_on_empty. right.
  exists 4, (caller_mem [Some 1]). split; [done|]. vm_compute. reflexivity.
Defined.

(** C8. [stack_push] and [stack_emplace] with a null element return false
    and leave the whole memory, hence the size of the stack, as it is; and
    whenever [stack_emplace] returns false no block has changed, so the
    caller's buffer is neither linked into the stack nor touched. *)
Theorem null_element_rejected sp m data m' :
  stack_push sp NULL m = Ok false m /\
  stack_emplace sp NULL m = Ok false m /\
  (stack_emplace sp data m = Ok false m' -> blocks m' = blocks m).
Proof.
  split; [done|]. split; [done|].
  apply (reported_failure_unchanged sp data 0 m m').
Qed.

Lemma null_element_rejected_witness :
  stack_push 1 NULL (fresh_stack [None]) = Ok false (fresh_stack [None]) /\
  stack_emplace 1 NULL (fresh_stack [None]) = Ok false (fresh_stack [None]) /\
  blocks (after (stack_emplace 1 102) (fresh_stack [None])) = blocks (fresh_stack [None]).
Proof.
  destruct (null_element_rejected 1 (fresh_stack [None]) 102
              (after (stack_emplace 1 102) (fresh_stack [None]))) as (Hp & He & Hf).
  split; [exact Hp|]. split; [exact He|].
  apply Hf. vm_compute. reflexivity.
Defined.

(** C9. [stack_initialise] returns what the allocation of the record
    returned, so null only when that allocation failed, and then nothing
    has changed; otherwise the new record has count 0, a null head and the
    given element size, and whatever pushes, emplaces, pops and destroys
    follow, the record still holds that element size. *)
Theorem element_size_fixed dsz m0 :
  (exists p m1 m', malloc STACK_SIZE m0 = Ok p m1 /\
                   stack_initialise dsz m0 = Ok p m' /\
                   (p = NULL -> blocks m' = blocks m0)) /\
  (forall sp m1, sp <> NULL -> stack_initialise dsz m0 = Ok sp m1 ->
     blocks m1 !! sp = Some (BStack (Stack.mk 0 dsz NULL)) /\
     forall cs m2, perform_all sp cs m1 = Ok tt m2 ->
       exists s2, blocks m2 !! sp = Some (BStack s2) /\ Stack.data_size s2 = dsz).
Proof.
  split.
  - destruct (stack_initialise_total dsz m0) as (p & m' & Hinit & m1 & Hm & Hcases).
    exists p, m1, m'. split; [done|]. split; [done|].
    intros ->. destruct Hcases as [[_ ?]|(Hp & _)]; [done|unfold NULL in Hp; lia].
  - intros sp m1 Hsp Hinit.
    apply stack_initialise_inv in Hinit as (_ & _ & Hb); [|done].
    assert (blocks m1 !! sp = Some (BStack (Stack.mk 0 dsz NULL))) as Hs
        by (rewrite Hb; apply lookup_insert_eq).
    split; [done|]. intros cs m2 Hcs.
    by apply (perform_all_keeps_record _ _ _ _ _ Hs Hcs).
Qed.

Lemma element_size_fixed_witness :
  exists s2,
    blocks (after (perform_all 1 [CallPush 100; CallEmplace 102; CallPop; CallPop; CallDestroy])
                  (fresh_stack [Some 2; Some 3; Some 4; Some 5])) !! 1 = Some (BStack s2) /\
    Stack.data_size s2 = 4.
Proof.
  destruct (element_size_fixed 4 (caller_mem [Some 1; Some 2; Some 3; Some 4; Some 5]))
    as [_ Hfix].
  destruct (Hfix 1 (fresh_stack [Some 2; Some 3; Some 4; Some 5])) as [_ Hcalls].
  - done.
  - vm_compute. reflexivity.
  - apply (Hcalls [CallPush 100; CallEmplace 102; CallPop; CallPop; CallDestroy]).
    vm_compute. reflexivity.
Defined.

(** C10. With a null stack handle, [stack_pop] returns false and
    [stack_peek] returns null, as [stack_is_empty] returns true and
    [stack_size] returns 0; the memory is left as it is. *)
Theorem null_handle_tolerated m :
  stack_pop NULL m = Ok false m /\
  stack_peek NULL m = Ok NULL m /\
  stack_is_empty NULL m = Ok true m /\
  stack_size NULL m = Ok 0 m.
Proof. done. Qed.

End properties.

(** ** The operations, given the allocator's answers *)

Section allocator.

Lemma granted_Some h o a :
  granted h o = Some a -> o = Some a /\ 0 < a <= SIZE_MAX /\ h !! a = None.
Proof.
  unfold granted. intros H. repeat case_match; simplify_eq.
  by rewrite <- valid_addr_spec.
Qed.

Lemma malloc_answer n m :
  malloc n m =
  match granted (blocks m) (next_answer (oracle m)) with
  | Some a => Ok a (mkmem (<[a := fresh_bytes n]> (blocks m)) (tail (oracle m)))
  | None => Ok NULL (mkmem (blocks m) (tail (oracle m)))
  end.
Proof.
  unfold malloc, granted, next_answer, fresh_bytes.
  destruct m as [h [|[a|] os]]; simpl; repeat case_match; done.
Qed.

Lemma stack_allocate_answer sp m s :
  blocks m !! sp = Some (BStack s) ->
  stack_allocate sp m =
  match granted (blocks m) (next_answer (oracle m)) with
  | None => Ok false (mkmem (blocks m) (tail (oracle m)))
  | Some a =>
      let d := granted (<[a := fresh_bytes STACK_NODE_SIZE]> (blocks m))
                       (next_answer (tail (oracle m))) in
      Ok true (mkmem (<[sp := BStack (Stack.mk (Stack.size s) (Stack.data_size s) a)]>
                        (<[a := BNode (StackNode.mk (payload_ptr d) (Stack.head s))]>
                           (with_payload (blocks m) (Stack.data_size s) d)))
                     (tail (tail (oracle m))))
  end.
Proof.
  intros Hs. unfold stack_allocate, bind at 1. rewrite malloc_answer.
  destruct (granted (blocks m) (next_answer (oracle m))) as [a|] eqn:Ha; [|done].
  apply granted_Some in Ha as (_ & Hva & Hfa).
  destruct (Z.eqb_spec a NULL) as [->|Hna]; [unfold NULL in Hva; lia|].
  assert (sp <> a) as Hspa by congruence.
  erewrite bind_eq; [|apply load_stack_eq; simpl; by rewrite lookup_insert_ne].
  unfold bind at 1. rewrite malloc_answer. simpl blocks. simpl oracle.
  destruct (granted (<[a:=fresh_bytes STACK_NODE_SIZE]> (blocks m))
                    (next_answer (tail (oracle m)))) as [d|] eqn:Hd; simpl.
  - apply granted_Some in Hd as (_ & Hvd & Hfd).
    assert (d <> a) as Hda by (intros ->; by rewrite lookup_insert_eq in Hfd).
    rewrite lookup_insert_ne in Hfd by done.
    assert (sp <> d) as Hspd by congruence.
    unfold bind at 1, store_node. simpl.
    rewrite lookup_insert_ne, lookup_insert_eq by done. simpl.
    erewrite bind_eq;
      [|apply set_head_eq; simpl; rewrite !lookup_insert_ne by done; exact Hs].
    unfold ret. simpl. do 2 f_equal. by heap_eq.
  - unfold bind at 1, store_node. simpl. rewrite lookup_insert_eq. simpl.
    erewrite bind_eq;
      [|apply set_head_eq; simpl; rewrite !lookup_insert_ne by done; exact Hs].
    unfold ret. simpl. do 2 f_equal. by heap_eq.
Qed.

(** X1. What [stack_push] does is decided by the next two answers of the
    allocator: it returns false with the heap unchanged when the node is
    refused, it is undefined when the node is granted and the payload is
    refused, and it returns true with exactly a new node and a copy of
    the first [data_size] bytes of the source when both are granted. *)
Theorem push_by_allocator m sp s data v :
  heap_ok (blocks m) ->
  blocks m !! sp = Some (BStack s) ->
  bytes_at (blocks m) data = Some v ->
  Stack.data_size s <= Z.of_nat (length v) ->
  stack_push sp data m =
  match granted (blocks m) (next_answer (oracle m)) with
  | None => Ok false (mkmem (blocks m) (tail (oracle m)))
  | Some a =>
      match granted (<[a := fresh_bytes STACK_NODE_SIZE]> (blocks m))
                    (next_answer (tail (oracle m))) with
      | None => UB
      | Some d =>
          Ok true
             (mkmem (<[sp := BStack (Stack.mk (size_wrap (Stack.size s + 1))
                                              (Stack.data_size s) a)]>
                       (<[a := BNode (StackNode.mk d (Stack.head s))]>
                          (<[d := BBytes (take (Z.to_nat (Stack.data_size s)) v)]>
                             (blocks m))))
                    (tail (tail (oracle m))))
      end
  end.
Proof.
  intros Hok Hs Hv Hlen.
  pose proof (heap_ok_null _ Hok) as Hnull.
  pose proof (bytes_at_live _ _ _ Hv) as [bv Hlive].
  assert (data <> NULL) as Hdata by congruence.
  assert (data <> sp) as Hdsp.
  { intros ->. apply bytes_at_Some in Hv as [?|?]; congruence. }
  unfold stack_push. destruct (Z.eqb_spec data NULL); [done|].
  unfold bind at 1. rewrite (stack_allocate_answer _ _ _ Hs).
  destruct (granted (blocks m) (next_answer (oracle m))) as [a|] eqn:Ha; [|done].
  apply granted_Some in Ha as (_ & Hva & Hfa).
  assert (sp <> a) as Hspa by congruence.
  assert (data <> a) as Hdaa by congruence.
  assert (a <> NULL) as Hna by (unfold NULL; lia).
  cbv zeta.
  destruct (granted (<[a:=fresh_bytes STACK_NODE_SIZE]> (blocks m))
                    (next_answer (tail (oracle m)))) as [d|] eqn:Hd; simpl.
  - apply granted_Some in Hd as (_ & Hvd & Hfd).
    assert (d <> a) as Hda by (intros ->; by rewrite lookup_insert_eq in Hfd).
    rewrite lookup_insert_ne in Hfd by done.
    assert (sp <> d) as Hspd by congruence.
    assert (data <> d) as Hdd by congruence.
    erewrite bind_eq; [|apply load_stack_eq; simpl; apply lookup_insert_eq].
    erewrite bind_eq;
      [|apply load_node_eq; simpl; rewrite lookup_insert_ne by done; apply lookup_insert_eq].
    unfold bind at 1, memcpy. cbn [blocks oracle StackNode.data Stack.data_size].
    rewrite !(bytes_at_insert_ne _ _ _ data), Hv by done.
    rewrite lookup_insert_ne, lookup_insert_ne, lookup_insert_eq by done.
    unfold fresh_bytes. rewrite length_replicate, drop_replicate, Nat.sub_diag, app_nil_r.
    destruct (Z.leb_spec (Stack.data_size s) (Z.of_nat (length v))); [|lia].
    destruct (Z.leb_spec (Stack.data_size s) (Z.of_nat (Z.to_nat (Stack.data_size s))));
      [|lia].
    simpl.
    erewrite bind_eq;
      [|apply load_stack_eq; simpl; rewrite lookup_insert_ne by done; apply lookup_insert_eq].
    erewrite bind_eq;
      [|apply set_size_eq; simpl; rewrite lookup_insert_ne by done; apply lookup_insert_eq].
    unfold ret. simpl. do 2 f_equal. by heap_eq.
  - erewrite bind_eq; [|apply load_stack_eq; simpl; apply lookup_insert_eq].
    erewrite bind_eq;
      [|apply load_node_eq; simpl; rewrite lookup_insert_ne by done; apply lookup_insert_eq].
    apply bind_UB. unfold memcpy. simpl.
    rewrite !(lookup_insert_ne _ _ NULL), Hnull by congruence.
    by repeat case_match.
Qed.

Lemma push_by_allocator_witness :
  stack_push 1 100 (fresh_stack [Some 2; Some 3]) =
  Ok true (mkmem (<[1 := BStack (Stack.mk 1 4 2)]>
                    (<[2 := BNode (StackNode.mk 3 NULL)]>
                       (<[3 := BBytes int_500]> (blocks (fresh_stack [Some 2; Some 3])))))
                 []).
Proof.
  rewrite (push_by_allocator (fresh_stack [Some 2; Some 3]) 1 (Stack.mk 0 4 NULL) 100 int_500).
  - vm_compute. reflexivity.
  - apply fresh_stack_heap_ok.
  - vm_compute. reflexivity.
  - vm_compute. reflexivity.
  - vm_compute. discriminate.
Defined.

(** X2. [stack_emplace] of a non-null buffer returns false with the heap
    unchanged when the node is refused, and otherwise returns true
    whatever the allocator says to the payload request: the new node
    holds the caller's pointer, and a payload block that was granted
    stays in the heap with no pointer to it stored. *)
Theorem emplace_by_allocator m sp s data :
  data <> NULL ->
  blocks m !! sp = Some (BStack s) ->
  stack_emplace sp data m =
  match granted (blocks m) (next_answer (oracle m)) with
  | None => Ok false (mkmem (blocks m) (tail (oracle m)))
  | Some a =>
      let d := granted (<[a := fresh_bytes STACK_NODE_SIZE]> (blocks m))
                       (next_answer (tail (oracle m))) in
      Ok true
         (mkmem (<[sp := BStack (Stack.mk (size_wrap (Stack.size s + 1))
                                          (Stack.data_size s) a)]>
                   (<[a := BNode (StackNode.mk data (Stack.head s))]>
                      (with_payload (blocks m) (Stack.data_size s) d)))
                (tail (tail (oracle m))))
  end.
Proof.
  intros Hdata Hs.
  unfold stack_emplace. destruct (Z.eqb_spec data NULL); [done|].
  unfold bind at 1. rewrite (stack_allocate_answer _ _ _ Hs).
  destruct (granted (blocks m) (next_answer (oracle m))) as [a|] eqn:Ha; [|done].
  apply granted_Some in Ha as (_ & Hva & Hfa).
  assert (sp <> a) as Hspa by congruence.
  cbv zeta. simpl.
  erewrite bind_eq; [|apply load_stack_eq; simpl; apply lookup_insert_eq].
  unfold bind at 1, set_data.
  erewrite bind_eq;
    [|apply load_node_eq; simpl; rewrite lookup_insert_ne by done; apply lookup_insert_eq].
  unfold store_node. simpl.
  rewrite lookup_insert_ne, lookup_insert_eq by done.
  erewrite bind_eq;
    [|apply load_stack_eq; simpl; rewrite lookup_insert_ne by done; apply lookup_insert_eq].
  erewrite bind_eq;
    [|apply set_size_eq; simpl; rewrite lookup_insert_ne by done; apply lookup_insert_eq].
  unfold ret. simpl. do 2 f_equal. by heap_eq.
Qed.

Lemma emplace_by_allocator_witness :
  stack_emplace 1 102 (fresh_stack [Some 2; None]) =
  Ok true (mkmem (<[1 := BStack (Stack.mk 1 4 2)]>
                    (<[2 := BNode (StackNode.mk 102 NULL)]>
                       (blocks (fresh_stack [Some 2; None]))))
                 []).
Proof.
  rewrite (emplace_by_allocator (fresh_stack [Some 2; None]) 1 (Stack.mk 0 4 NULL) 102).
  - vm_compute. reflexivity.
  - done.
  - vm_compute. reflexivity.
Defined.

(** X3. The tolerance of a null stack handle ends with the observers and
    [stack_pop]: [stack_destroy] does nothing on it, but [stack_push]
    and [stack_emplace] of a non-null element dereference it as soon as
    the node allocation is granted, and return false only when it is
    refused. *)
Theorem null_handle_mutators m data :
  blocks m !! NULL = None ->
  data <> NULL ->
  stack_destroy NULL m = Ok tt m /\
  stack_push NULL data m =
    match granted (blocks m) (next_answer (oracle m)) with
    | None => Ok false (mkmem (blocks m) (tail (oracle m)))
    | Some _ => UB
    end /\
  stack_emplace NULL data m =
    match granted (blocks m) (next_answer (oracle m)) with
    | None => Ok false (mkmem (blocks m) (tail (oracle m)))
    | Some _ => UB
    end.
Proof.
  intros Hnull Hdata. split; [done|].
  assert (stack_allocate NULL m =
          match granted (blocks m) (next_answer (oracle m)) with
          | None => Ok false (mkmem (blocks m) (tail (oracle m)))
          | Some _ => UB
          end) as Hal.
  { unfold stack_allocate, bind at 1. rewrite malloc_answer.
    destruct (granted (blocks m) (next_answer (oracle m))) as [a|] eqn:Ha; [|done].
    apply granted_Some in Ha as (_ & Hva & Hfa).
    destruct (Z.eqb_spec a NULL) as [->|Hna]; [unfold NULL in Hva; lia|].
    apply bind_UB. unfold load_stack. simpl.
    by rewrite lookup_insert_ne, Hnull. }
  unfold stack_push, stack_emplace.
  destruct (Z.eqb_spec data NULL); [done|].
  split; unfold bind at 1; rewrite Hal;
    by destruct (granted (blocks m) (next_answer (oracle m))).
Qed.

Lemma null_handle_mutators_witness :
  stack_destroy NULL (caller_mem [Some 1]) = Ok tt (caller_mem [Some 1]) /\
  stack_push NULL 100 (caller_mem [Some 1]) = UB /\
  stack_emplace NULL 102 (caller_mem [Some 1]) = UB.
Proof.
  destruct (null_handle_mutators (caller_mem [Some 1]) 100) as (Hd & Hp & _);
    [vm_compute; reflexivity|done|].
  destruct (null_handle_mutators (caller_mem [Some 1]) 102) as (_ & _ & He);
    [vm_compute; reflexivity|done|].
  split; [exact Hd|]. split; [exact Hp|exact He].
Defined.

End allocator.

(** ** The stack as a list *)

Section refinement.

Lemma fresh_stack_rep answers : stack_rep (blocks (fresh_stack answers)) 1 4 [].
Proof.
  apply (rep_initialise 4 (caller_mem (Some 1 :: answers))).
  - apply caller_heap_ok.
  - done.
  - vm_compute. reflexivity.
Qed.

Lemma one_element_rep : stack_rep (blocks one_element) 1 4 [(2, 3, int_500)].
Proof.
  split; [unfold heap_ok; apply (bool_decide_unpack _); vm_compute; exact I|].
  split; [apply (bool_decide_unpack _); vm_compute; exact I|].
  split; [apply (bool_decide_unpack _); vm_compute; exact I|].
  exists (Stack.mk 1 4 2). split; [vm_compute; reflexivity|].
  split; [done|]. split; [done|].
  split; [done|]. exists NULL. split; [vm_compute; reflexivity|].
  split; [vm_compute; reflexivity|done].
Qed.

Lemma two_elements_rep :
  stack_rep (blocks two_elements) 1 4 [(4, 5, int_1000); (2, 3, int_500)].
Proof.
  split; [unfold heap_ok; apply (bool_decide_unpack _); vm_compute; exact I|].
  split; [apply (bool_decide_unpack _); vm_compute; exact I|].
  split; [apply (bool_decide_unpack _); vm_compute; exact I|].
  exists (Stack.mk 2 4 4). split; [vm_compute; reflexivity|].
  split; [done|]. split; [done|].
  split; [done|]. exists 2. split; [vm_compute; reflexivity|].
  split; [vm_compute; reflexivity|].
  split; [done|]. exists NULL. split; [vm_compute; reflexivity|].
  split; [vm_compute; reflexivity|done].
Qed.

Lemma stack_pop_exact sp m s d nx b :
  sp <> NULL ->
  blocks m !! sp = Some (BStack s) ->
  Stack.head s <> NULL ->
  blocks m !! Stack.head s = Some (BNode (StackNode.mk d nx)) ->
  blocks m !! d = Some b -> allocated b = true ->
  d <> NULL -> d <> Stack.head s -> d <> sp ->
  stack_pop sp m =
  Ok true (mkmem (<[sp := BStack (Stack.mk (size_wrap (Stack.size s - 1))
                                           (Stack.data_size s) nx)]>
                    (delete (Stack.head s) (delete d (blocks m))))
                 (oracle m)).
Proof.
  intros Hsp Hs Hh Hn Hd Hal Hdn Hdh Hdsp.
  assert (sp <> Stack.head s) as Hne by congruence.
  unfold stack_pop.
  rewrite (bind_eq _ _ _ _ _ (stack_is_empty_eq _ _ _ Hs Hsp)).
  destruct (Z.eqb_spec (Stack.head s) NULL); [done|].
  rewrite (bind_eq _ _ _ _ _ (load_stack_eq _ _ _ Hs)). cbv zeta.
  rewrite (bind_eq _ _ _ _ _ (load_node_eq _ _ _ Hn)).
  rewrite (bind_eq _ _ _ _ _ (set_head_eq _ _ _ _ Hs)).
  erewrite bind_eq;
    [|apply load_node_eq; simpl; rewrite lookup_insert_ne by done; exact Hn].
  erewrite bind_eq;
    [|eapply free_eq; simpl; [rewrite lookup_insert_ne by done; exact Hd|done|done]].
  erewrite bind_eq;
    [|eapply free_eq; simpl;
      [rewrite lookup_delete_ne, lookup_insert_ne by done; exact Hn|done|done]].
  erewrite bind_eq;
    [|apply load_stack_eq; simpl;
      rewrite !lookup_delete_ne, lookup_insert_eq by done; reflexivity].
  erewrite bind_eq;
    [|apply set_size_eq; simpl;
      rewrite !lookup_delete_ne, lookup_insert_eq by done; reflexivity].
  unfold ret. simpl. do 2 f_equal. by heap_eq.
Qed.

(** X4. On a stack that holds the elements [l], a push that returns true
    has put the first [data_size] bytes of the source on top: the stack
    then holds that value followed by [l], in a node and a payload block
    that were both free before, and every other block, the source
    included, is as it was. *)
Theorem push_adds_top m sp dsz l data v m' :
  stack_rep (blocks m) sp dsz l ->
  bytes_at (blocks m) data = Some v ->
  stack_push sp data m = Ok true m' ->
  exists a d,
    blocks m !! a = None /\ blocks m !! d = None /\
    stack_rep (blocks m') sp dsz ((a, d, take (Z.to_nat dsz) v) :: l) /\
    contents ((a, d, take (Z.to_nat dsz) v) :: l) = take (Z.to_nat dsz) v :: contents l /\
    (forall y b, blocks m !! y = Some b -> y <> sp -> blocks m' !! y = Some b).
Proof.
  intros Hrep Hv Hpush.
  pose proof (rep_heap_ok _ _ _ _ Hrep) as Hok.
  apply stack_push_inv in Hpush
      as [[? _]|(_ & Hdata & s & a & d & bs & Hs & Hva & Hfa & Hvd & Hfd & Hda & Hbs & Hb)];
    [done| |by apply heap_ok_null].
  destruct (rep_record _ _ _ _ Hrep) as (s0 & Hs0 & Hdsz & _).
  rewrite Hs in Hs0. injection Hs0 as <-. subst dsz.
  rewrite (Hbs _ Hv) in Hb.
  assert (sp <> a) as Hspa by congruence.
  assert (sp <> d) as Hspd by congruence.
  assert (forall y b, blocks m !! y = Some b -> y <> sp -> blocks m' !! y = Some b) as Hframe.
  { intros y b Hy Hysp. rewrite Hb.
    rewrite !lookup_insert_ne; [done|..]; congruence. }
  exists a, d. repeat (split; [done|]). split; [|by split].
  eapply rep_grow; eauto.
  - intros Hin. destruct (rep_payload_live _ _ _ _ _ Hrep Hin) as [b Hlive]. congruence.
  - rewrite Hb. repeat apply heap_ok_insert; try done.
    by apply (heap_ok_lookup _ _ _ Hok Hs).
  - rewrite Hb. by rewrite lookup_insert_ne, lookup_insert_eq.
  - rewrite Hb. by rewrite lookup_insert_ne, lookup_insert_ne, lookup_insert_eq.
  - rewrite Hb. by rewrite lookup_insert_eq.
Qed.

Lemma push_adds_top_witness :
  exists a d,
    blocks (fresh_stack [Some 2; Some 3; Some 4; Some 5]) !! a = None /\
    blocks (fresh_stack [Some 2; Some 3; Some 4; Some 5]) !! d = None /\
    stack_rep (blocks one_element) 1 4 [(a, d, take (Z.to_nat 4) int_500)] /\
    contents [(a, d, take (Z.to_nat 4) int_500)] = [take (Z.to_nat 4) int_500] /\
    (forall y b, blocks (fresh_stack [Some 2; Some 3; Some 4; Some 5]) !! y = Some b -> y <> 1 ->
                 blocks one_element !! y = Some b).
Proof.
  apply (push_adds_top (fresh_stack [Some 2; Some 3; Some 4; Some 5]) 1 4 [] 100 int_500 one_element).
  - apply fresh_stack_rep.
  - vm_compute. reflexivity.
  - vm_compute. reflexivity.
Defined.

(** X5. On a stack that holds [l], an emplace that returns true of a live
    byte buffer obtained from [malloc], which the stack does not hold yet,
    has put that very buffer on top, unchanged and not copied: the stack then holds the buffer's
    bytes followed by [l], the top node's payload pointer being the
    caller's pointer, and every other block is as it was. *)
Theorem emplace_adopts_buffer m sp dsz l data bs m' :
  stack_rep (blocks m) sp dsz l ->
  blocks m !! data = Some (BBytes bs) ->
  data ∉ payload_of <$> l ->
  stack_emplace sp data m = Ok true m' ->
  exists a,
    blocks m !! a = None /\
    stack_rep (blocks m') sp dsz ((a, data, bs) :: l) /\
    contents ((a, data, bs) :: l) = bs :: contents l /\
    (forall y b, blocks m !! y = Some b -> y <> sp -> blocks m' !! y = Some b).
Proof.
  intros Hrep Hlive Hnew Hemp.
  pose proof (rep_heap_ok _ _ _ _ Hrep) as Hok.
  apply stack_emplace_inv in Hemp
      as [[? _]|(_ & Hdata & s & a & d & h1 & Hs & Hva & Hfa & Hd & Hb)]; [done|].
  destruct (rep_record _ _ _ _ Hrep) as (s0 & Hs0 & Hdsz & _).
  rewrite Hs in Hs0. injection Hs0 as <-. subst dsz.
  assert (sp <> a) as Hspa by congruence.
  assert (data <> a) as Hdaa by congruence.
  assert (data <> sp) as Hdsp by congruence.
  assert (heap_ok h1 /\ forall y b, blocks m !! y = Some b -> h1 !! y = Some b) as [Hok1 Hh1].
  { destruct Hd as [[_ ->]|(Hvd & Hda & Hfd & ->)]; [done|].
    split; [by apply heap_ok_insert|].
    intros y b Hy. rewrite lookup_insert_ne; [done|congruence]. }
  assert (forall y b, blocks m !! y = Some b -> y <> sp -> blocks m' !! y = Some b) as Hframe.
  { intros y b Hy Hysp. rewrite Hb.
    rewrite !lookup_insert_ne; [by apply Hh1|..]; congruence. }
  exists a. split; [done|]. split; [|by split].
  eapply rep_grow; eauto.
  - rewrite Hb. repeat apply heap_ok_insert; try done.
    by apply (heap_ok_lookup _ _ _ Hok Hs).
  - rewrite Hb. by rewrite lookup_insert_ne, lookup_insert_eq.
  - rewrite Hb. by rewrite lookup_insert_eq.
Qed.

Lemma emplace_adopts_buffer_witness :
  exists a,
    blocks one_element !! a = None /\
    stack_rep (blocks (after (stack_emplace 1 102) one_element)) 1 4
              [(a, 102, int_500); (2, 3, int_500)] /\
    contents [(a, 102, int_500); (2, 3, int_500)] = [int_500; int_500] /\
    (forall y b, blocks one_element !! y = Some b -> y <> 1 ->
                 blocks (after (stack_emplace 1 102) one_element) !! y = Some b).
Proof.
  apply (emplace_adopts_buffer one_element 1 4 [(2, 3, int_500)] 102 int_500).
  - apply one_element_rep.
  - vm_compute. reflexivity.
  - apply (bool_decide_unpack _). vm_compute. exact I.
  - vm_compute. reflexivity.
Defined.

(** X6. On a stack that holds [x :: l], every payload being a block
    obtained from [malloc], [stack_pop] is defined and returns true; it
    frees the top node and its payload, makes the node
    below the head, takes one off the count and touches nothing else,
    the allocator's answers included: the stack then holds [l]. *)
Theorem pop_removes_top m sp dsz x l :
  stack_rep (blocks m) sp dsz (x :: l) ->
  stack_pop sp m =
    Ok true (mkmem (<[sp := BStack (Stack.mk (Z.of_nat (length l)) dsz
                                             (match l with
                                              | [] => NULL
                                              | y :: _ => node_of y
                                              end))]>
                      (delete (node_of x) (delete (payload_of x) (blocks m))))
                   (oracle m)) /\
  stack_rep (<[sp := BStack (Stack.mk (Z.of_nat (length l)) dsz
                                      (match l with
                                       | [] => NULL
                                       | y :: _ => node_of y
                                       end))]>
               (delete (node_of x) (delete (payload_of x) (blocks m))))
            sp dsz l.
Proof.
  intros Hrep.
  destruct (rep_pop _ _ _ _ _ Hrep) as (m' & Hpop & Hrep' & _).
  pose proof (rep_sp_not_null _ _ _ _ Hrep) as Hsp.
  destruct Hrep as (Hok & Hnd1 & Hnd2 & s & Hs & Hdsz & Hsz & Hc).
  pose proof (chain_length_bound _ _ _ Hok Hc Hnd1) as Hlen.
  destruct Hc as (Hh & nx & Hn & Hp & Hc).
  pose proof (heap_ok_lookup _ _ _ Hok Hn) as Hva.
  pose proof (heap_ok_lookup _ _ _ Hok Hp) as Hvd.
  assert (nx = match l with [] => NULL | y :: _ => node_of y end) as Hnx
      by (destruct l; [done|by destruct Hc]).
  assert (size_wrap (Stack.size s - 1) = Z.of_nat (length l)) as Hw.
  { simpl in Hsz, Hlen. rewrite Hsz, size_wrap_small; lia. }
  assert (stack_pop sp m =
          Ok true (mkmem (<[sp := BStack (Stack.mk (Z.of_nat (length l)) dsz
                                                   (match l with
                                                    | [] => NULL
                                                    | y :: _ => node_of y
                                                    end))]>
                            (delete (node_of x) (delete (payload_of x) (blocks m))))
                         (oracle m))) as Hexact.
  { rewrite <- Hnx, <- Hw, <- Hdsz, <- Hh.
    apply (stack_pop_exact sp m s (payload_of x) nx (BBytes (bytes_of x)));
      try done; try (rewrite Hh; done); try (unfold NULL; lia); congruence. }
  split; [done|]. rewrite Hexact in Hpop. by injection Hpop as <-.
Qed.

Lemma pop_removes_top_witness :
  stack_pop 1 two_elements =
    Ok true (mkmem (<[1 := BStack (Stack.mk 1 4 2)]>
                      (delete 4 (delete 5 (blocks two_elements))))
                   (oracle two_elements)) /\
  stack_rep (<[1 := BStack (Stack.mk 1 4 2)]> (delete 4 (delete 5 (blocks two_elements))))
            1 4 [(2, 3, int_500)].
Proof.
  apply (pop_removes_top two_elements 1 4 (4, 5, int_1000) [(2, 3, int_500)]).
  apply two_elements_rep.
Defined.

(** X7. On a stack that holds [l], the observers are those of the list:
    [stack_is_empty] tells whether [l] is empty, [stack_size] returns its
    length, [stack_peek] returns the payload pointer of its first
    element, or null, and reading through it gives the first value. They
    leave the memory as it is. *)
Theorem observers_of_list m sp dsz l :
  stack_rep (blocks m) sp dsz l ->
  stack_is_empty sp m = Ok (bool_decide (l = [])) m /\
  stack_size sp m = Ok (Z.of_nat (length l)) m /\
  stack_peek sp m = Ok (match l with [] => NULL | x :: _ => payload_of x end) m /\
  peek_value sp m = Ok (head (contents l)) m.
Proof.
  intros Hrep.
  split; [by apply (rep_is_empty _ _ dsz)|].
  split; [by apply (rep_size _ _ dsz)|].
  destruct l as [|x l].
  - assert (stack_peek sp m = Ok NULL m) as Hpeek.
    { unfold stack_peek. by rewrite (bind_eq _ _ _ _ _ (rep_is_empty _ _ _ _ Hrep)). }
    split; [done|]. unfold peek_value. by rewrite (bind_eq _ _ _ _ _ Hpeek).
  - split; [by apply (rep_peek _ _ dsz _ l)|by apply (rep_peek_value _ _ dsz _ l)].
Qed.

Lemma observers_of_list_witness :
  stack_is_empty 1 two_elements = Ok false two_elements /\
  stack_size 1 two_elements = Ok 2 two_elements /\
  stack_peek 1 two_elements = Ok 5 two_elements /\
  peek_value 1 two_elements = Ok (Some int_1000) two_elements.
Proof.
  apply (observers_of_list two_elements 1 4 [(4, 5, int_1000); (2, 3, int_500)]).
  apply two_elements_rep.
Defined.

End refinement.

(** ** Insertion followed by removal *)

Section round_trips.

Lemma size_wrap_succ_pred z : 0 <= z <= SIZE_MAX -> size_wrap (size_wrap (z + 1) - 1) = z.
Proof.
  intros Hz. unfold size_wrap.
  rewrite Zminus_mod_idemp_l. replace (z + 1 - 1) with z by lia.
  apply Z.mod_small. lia.
Qed.

(** X8. A push that returns true followed by a pop leaves every block of
    the heap, the stack record included, exactly as before the push: the
    pop is defined, returns true, and nothing is leaked. *)
Theorem push_pop_restores_heap m sp s data m1 :
  heap_ok (blocks m) ->
  blocks m !! sp = Some (BStack s) ->
  0 <= Stack.size s <= SIZE_MAX ->
  stack_push sp data m = Ok true m1 ->
  stack_pop sp m1 = Ok true (mkmem (blocks m) (oracle m1)).
Proof.
  intros Hok Hs Hsz Hpush.
  pose proof (heap_ok_null _ Hok) as Hnull.
  assert (sp <> NULL) as Hsp by congruence.
  apply stack_push_inv in Hpush
      as [[? _]|(_ & Hdata & s0 & a & d & bs & Hs0 & Hva & Hfa & Hvd & Hfd & Hda & _ & Hb)];
    [done| |done].
  rewrite Hs in Hs0. injection Hs0 as <-.
  assert (sp <> a) as Hspa by congruence.
  assert (sp <> d) as Hspd by congruence.
  rewrite (stack_pop_exact sp m1
             (Stack.mk (size_wrap (Stack.size s + 1)) (Stack.data_size s) a)
             d (Stack.head s) (BBytes bs)); try done.
  - simpl. rewrite (size_wrap_succ_pred _ Hsz). do 2 f_equal. rewrite Hb.
    apply map_eq. intros i.
    destruct (decide (i = sp)) as [->|Hi].
    { rewrite lookup_insert_eq, Hs. by destruct s. }
    rewrite lookup_insert_ne by done.
    destruct (decide (i = a)) as [->|Hia]; [by rewrite lookup_delete_eq|].
    rewrite lookup_delete_ne by done.
    destruct (decide (i = d)) as [->|Hid]; [by rewrite lookup_delete_eq|].
    by rewrite lookup_delete_ne, !lookup_insert_ne.
  - rewrite Hb. apply lookup_insert_eq.
  - simpl. unfold NULL. lia.
  - rewrite Hb. simpl. by rewrite lookup_insert_ne, lookup_insert_eq.
  - rewrite Hb. by rewrite lookup_insert_ne, lookup_insert_ne, lookup_insert_eq.
  - unfold NULL. lia.
Qed.

Lemma push_pop_restores_heap_witness :
  stack_pop 1 (after (stack_push 1 101) one_element)
  = Ok true (mkmem (blocks one_element) (oracle (after (stack_push 1 101) one_element))).
Proof.
  apply (push_pop_restores_heap one_element 1 (Stack.mk 1 4 2) 101).
  - apply (rep_heap_ok _ _ _ _ one_element_rep).
  - vm_compute. reflexivity.
  - simpl. unfold SIZE_MAX. lia.
  - vm_compute. reflexivity.
Defined.

(** X9. An emplace of a block the caller obtained from [malloc] that
    returns true, followed by a pop, frees the caller's block and restores
    the stack record, but does not restore the heap when the allocator
    granted the payload request of [stack_allocate]: that block, which no
    operation uses, is still allocated.  The heap is the one before the
    emplace without the caller's block and with that block. *)
Theorem emplace_pop_leaves_payload m sp s data b m1 :
  heap_ok (blocks m) ->
  blocks m !! sp = Some (BStack s) ->
  0 <= Stack.size s <= SIZE_MAX ->
  blocks m !! data = Some b -> allocated b = true -> data <> sp ->
  stack_emplace sp data m = Ok true m1 ->
  exists d,
    (forall p, d = Some p -> blocks m !! p = None) /\
    stack_pop sp m1 =
    Ok true (mkmem (with_payload (delete data (blocks m)) (Stack.data_size s) d)
                   (oracle m1)).
Proof.
  intros Hok Hs Hsz Hlive Hal Hdsp Hemp.
  pose proof (heap_ok_null _ Hok) as Hnull.
  assert (sp <> NULL) as Hsp by congruence.
  assert (data <> NULL) as Hdn by congruence.
  apply stack_emplace_inv in Hemp
      as [[? _]|(_ & _ & s0 & a & d & h1 & Hs0 & Hva & Hfa & Hd & Hb)]; [done|].
  rewrite Hs in Hs0. injection Hs0 as <-.
  assert (sp <> a) as Hspa by congruence.
  assert (data <> a) as Hdaa by congruence.
  assert (h1 !! data = Some b /\ h1 !! sp = Some (BStack s) /\ h1 !! a = None /\
          exists o, (forall p, o = Some p -> blocks m !! p = None) /\
                    h1 = with_payload (blocks m) (Stack.data_size s) o)
    as (Hd1 & Hs1 & Ha1 & o & Ho & Hh1).
  { destruct Hd as [[_ ->]|(Hvd & Hda & Hfd & ->)].
    - repeat (split; [done|]). exists None. by split.
    - rewrite !lookup_insert_ne by congruence. repeat (split; [done|]).
      exists (Some d). split; [|done]. intros p [= <-]. done. }
  exists o. split; [done|].
  rewrite (stack_pop_exact sp m1
             (Stack.mk (size_wrap (Stack.size s + 1)) (Stack.data_size s) a)
             data (Stack.head s) b); try done.
  - simpl. rewrite (size_wrap_succ_pred _ Hsz). do 2 f_equal. rewrite Hb, Hh1.
    apply map_eq. intros i.
    destruct (decide (i = sp)) as [->|Hi].
    { rewrite lookup_insert_eq. destruct o as [p|]; simpl.
      - rewrite lookup_insert_ne, lookup_delete_ne, Hs by
          (try done; intros ->; specialize (Ho _ eq_refl); congruence).
        by destruct s.
      - rewrite lookup_delete_ne, Hs by done. by destruct s. }
    rewrite lookup_insert_ne by done.
    destruct (decide (i = a)) as [->|Hia].
    { rewrite lookup_delete_eq. destruct o as [p|]; simpl.
      - rewrite Hh1 in Ha1. simpl in Ha1.
        destruct (decide (a = p)) as [->|Hap]; [by rewrite lookup_insert_eq in Ha1|].
        by rewrite lookup_insert_ne, lookup_delete_ne.
      - by rewrite lookup_delete_ne. }
    rewrite lookup_delete_ne by done.
    destruct (decide (i = data)) as [->|Hid].
    { rewrite lookup_delete_eq. destruct o as [p|]; simpl.
      - rewrite lookup_insert_ne, lookup_delete_eq;
          [done|intros ->; specialize (Ho _ eq_refl); congruence].
      - by rewrite lookup_delete_eq. }
    rewrite lookup_delete_ne, !lookup_insert_ne by done.
    destruct o as [p|]; simpl; [|by rewrite lookup_delete_ne].
    destruct (decide (i = p)) as [->|Hip]; [by rewrite !lookup_insert_eq|].
    by rewrite !lookup_insert_ne, lookup_delete_ne.
  - rewrite Hb. apply lookup_insert_eq.
  - simpl. unfold NULL. lia.
  - rewrite Hb. simpl. by rewrite lookup_insert_ne, lookup_insert_eq.
  - rewrite Hb. by rewrite lookup_insert_ne, lookup_insert_ne.
Qed.

Lemma emplace_pop_leaves_payload_witness :
  exists d,
    (forall p, d = Some p -> blocks one_element !! p = None) /\
    stack_pop 1 (after (stack_emplace 1 102) one_element) =
    Ok true (mkmem (with_payload (delete 102 (blocks one_element)) 4 d)
                   (oracle (after (stack_emplace 1 102) one_element))).
Proof.
  apply (emplace_pop_leaves_payload one_element 1 (Stack.mk 1 4 2) 102 (BBytes int_500)).
  - apply (rep_heap_ok _ _ _ _ one_element_rep).
  - vm_compute. reflexivity.
  - simpl. unfold SIZE_MAX. lia.
  - vm_compute. reflexivity.
  - reflexivity.
  - done.
  - vm_compute. reflexivity.
Defined.

End round_trips.

(** ** More on [stack_destroy] *)

Section teardown.

Lemma destroy_loop_more_budget sp f : forall g m,
  (f <= g)%nat -> destroy_loop f sp m <> Fuel ->
  destroy_loop g sp m = destroy_loop f sp m.
Proof.
  induction f as [|f IH]; intros g m Hfg Hf; [done|].
  destruct g as [|g]; [lia|]. simpl in *. unfold bind in *.
  destruct (stack_is_empty sp m) as [e m1| |]; [|done|done].
  destruct e; [done|]. simpl in *.
  destruct (destroy_body sp m1) as [u m2| |]; [|done|done].
  apply IH; [lia|done].
Qed.

(** X10. The loop of [stack_destroy] ends on every memory, cyclic chains
    of nodes included: within one turn per allocated block, and one
    more, it has returned or gone wrong, and a larger budget of turns
    gives the same result. *)
Theorem destroy_loop_budget sp m fuel :
  (size (blocks m) + 2 <= fuel)%nat ->
  destroy_loop fuel sp m = stack_destroy sp m /\ stack_destroy sp m <> Fuel.
Proof.
  intros Hfuel. split; [|apply stack_destroy_terminates].
  unfold stack_destroy. apply destroy_loop_more_budget; [lia|].
  apply destroy_loop_terminates. lia.
Qed.

Lemma destroy_loop_budget_witness :
  destroy_loop 100 1 two_elements = stack_destroy 1 two_elements /\
  stack_destroy 1 two_elements <> Fuel.
Proof.
  apply destroy_loop_budget. vm_compute. lia.
Defined.

Lemma rep_wf h sp dsz l :
  stack_rep h sp dsz l ->
  stack_wf h sp ((fun x => (node_of x, payload_of x)) <$> l).
Proof.
  intros (Hok & Hnd1 & Hnd2 & s & Hs & _ & Hsz & Hc).
  split; [done|]. split; [by rewrite <- list_fmap_compose|].
  split.
  - clear Hsz Hnd1 Hnd2. revert Hc. generalize (Stack.head s).
    induction l as [|x l IH]; intros p Hc; [done|].
    destruct Hc as (_ & nx & Hn & Hp & Hc). simpl. split; [|by apply (IH nx)].
    rewrite <- list_fmap_compose. intros Hin.
    apply list_elem_of_fmap in Hin as (y & Hy & Hyl). simpl in Hy.
    destruct (chain_item _ _ _ _ Hc Hyl) as (ny & Hyn & _). congruence.
  - exists s. split; [done|]. split; [by rewrite length_fmap|].
    clear Hsz Hnd1 Hnd2. revert Hc. generalize (Stack.head s).
    induction l as [|x l IH]; intros p Hc; [done|].
    destruct Hc as (-> & nx & Hn & Hp & Hc). simpl. split; [done|].
    exists nx. split; [done|]. by apply IH.
Qed.

(** X11. On a well-formed stack, [stack_destroy] returns only when there
    is at most one element, and then leaves an empty well-formed stack:
    with no element it changes nothing, and with two or more it is
    undefined, because the node it frees in the first turn of the loop
    is the one it reads in the second. *)
Theorem destroy_by_length m sp l :
  stack_wf (blocks m) sp l ->
  (l = [] -> stack_destroy sp m = Ok tt m) /\
  ((2 <= length l)%nat -> stack_destroy sp m = UB) /\
  (forall m', stack_destroy sp m = Ok tt m' ->
              (length l <= 1)%nat /\ stack_wf (blocks m') sp []).
Proof.
  intros Hwf. split; [|split].
  - intros ->. unfold stack_destroy. simpl.
    by rewrite (bind_eq _ _ _ _ _ (wf_is_empty _ _ _ Hwf)).
  - intros Hlen. pose proof (stack_destroy_terminates sp m) as Hterm.
    destruct (stack_destroy sp m) as [[] m'| |] eqn:Hdes; [|done|done].
    apply (wf_destroy _ _ _ _ Hwf) in Hdes as [? _]. lia.
  - intros m' Hdes. by apply (wf_destroy _ _ _ _ Hwf).
Qed.

Lemma destroy_by_length_witness :
  stack_destroy 1 two_elements = UB.
Proof.
  destruct (destroy_by_length two_elements 1
              ((fun x => (node_of x, payload_of x)) <$> [(4, 5, int_1000); (2, 3, int_500)]))
    as (_ & Hub & _).
  - apply (rep_wf _ _ 4). apply two_elements_rep.
  - apply Hub. simpl. lia.
Defined.

(** X12. On a stack that holds exactly one element, in a payload block
    obtained from [malloc], [stack_destroy] returns with the count at zero and the head null, and has freed the
    payload; the node itself is not freed and stays in the heap, with
    no pointer to it left in the stack. *)
Theorem destroy_single_keeps_node m sp dsz x :
  stack_rep (blocks m) sp dsz [x] ->
  stack_destroy sp m =
    Ok tt (mkmem (<[sp := BStack (Stack.mk 0 dsz NULL)]> (delete (payload_of x) (blocks m)))
                 (oracle m)) /\
  (<[sp := BStack (Stack.mk 0 dsz NULL)]> (delete (payload_of x) (blocks m))) !! node_of x
  = Some (BNode (StackNode.mk (payload_of x) NULL)).
Proof.
  intros Hrep.
  pose proof (rep_sp_not_null _ _ _ _ Hrep) as Hsp.
  pose proof (rep_is_empty _ _ _ _ Hrep) as Hemp.
  rewrite bool_decide_eq_false_2 in Hemp by done.
  destruct Hrep as (Hok & Hnd1 & Hnd2 & s & Hs & Hdsz & Hsz & Hh & nx & Hn & Hp & Hc).
  simpl in Hc. subst nx.
  pose proof (heap_ok_lookup _ _ _ Hok Hn) as Hva.
  pose proof (heap_ok_lookup _ _ _ Hok Hp) as Hvd.
  assert (node_of x <> NULL) as Hnn by (unfold NULL; lia).
  assert (payload_of x <> NULL) as Hpn by (unfold NULL; lia).
  assert (payload_of x <> node_of x) as Hpa by congruence.
  assert (payload_of x <> sp) as Hpsp by congruence.
  assert (node_of x <> sp) as Hasp by congruence.
  split.
  - rewrite <- Hh in Hn, Hnn, Hpa.
    unfold stack_destroy. simpl destroy_loop.
    rewrite (bind_eq _ _ _ _ _ Hemp). cbn [negb].
    erewrite bind_eq;
      [|by apply (destroy_body_eq sp m s (payload_of x) NULL (BBytes (bytes_of x)));
          auto].
    unfold release at 1. simpl (NULL =? NULL). cbv iota.
    erewrite bind_eq;
      [|eapply stack_is_empty_head_null; [simpl; apply lookup_insert_eq|done]].
    unfold ret. cbn [negb]. do 2 f_equal.
    rewrite Hsz, Hdsz. simpl. rewrite size_wrap_small by (unfold SIZE_MAX; lia).
    by heap_eq.
  - by rewrite lookup_insert_ne, lookup_delete_ne.
Qed.

Lemma destroy_single_keeps_node_witness :
  stack_destroy 1 one_element =
    Ok tt (mkmem (<[1 := BStack (Stack.mk 0 4 NULL)]> (delete 3 (blocks one_element)))
                 (oracle one_element)) /\
  (<[1 := BStack (Stack.mk 0 4 NULL)]> (delete 3 (blocks one_element))) !! 2
  = Some (BNode (StackNode.mk 3 NULL)).
Proof.
  apply (destroy_single_keeps_node one_element 1 4 (2, 3, int_500)).
  apply one_element_rep.
Defined.

End teardown.

(** ** Several stacks in one heap *)

Section independence.








End independence.

(** ** Why an operation reports failure *)

Section failures.

Lemma stack_allocate_false sp m m' :
  stack_allocate sp m = Ok false m' ->
  granted (blocks m) (next_answer (oracle m)) = None /\ blocks m' = blocks m.
Proof.
  unfold stack_allocate, bind at 1. rewrite malloc_answer. intros H.
  destruct (granted (blocks m) (next_answer (oracle m))) as [a|] eqn:Ha.
  - apply granted_Some in Ha as (_ & Hva & _).
    destruct (Z.eqb_spec a NULL) as [->|Hna]; [unfold NULL in Hva; lia|].
    split_bind H s m1 H1. split_bind H d m2 H2.
    split_bind H u m3 H3. split_bind H u' m4 H4.
    unfold ret in H. by simplify_eq.
  - simpl in H. unfold ret in H. by simplify_eq.
Qed.

(** X15. Failure is reported for three reasons only, and never after a
    block has changed: [stack_pop] returns false exactly when
    [stack_is_empty] says the stack is empty, and then leaves the
    memory as it is; [stack_push] and [stack_emplace] return false only
    for a null element or a refused node allocation; [stack_initialise]
    returns null only when the allocation of the record is refused. *)
Theorem failure_reasons m sp data dsz m' :
  (stack_pop sp m = Ok false m' <-> m' = m /\ stack_is_empty sp m = Ok true m) /\
  (stack_push sp data m = Ok false m' ->
   blocks m' = blocks m /\
   (data = NULL \/ granted (blocks m) (next_answer (oracle m)) = None)) /\
  (stack_emplace sp data m = Ok false m' ->
   blocks m' = blocks m /\
   (data = NULL \/ granted (blocks m) (next_answer (oracle m)) = None)) /\
  (stack_initialise dsz m = Ok NULL m' ->
   blocks m' = blocks m /\ granted (blocks m) (next_answer (oracle m)) = None).
Proof.
  split; [|split; [|split]].
  - split.
    + unfold stack_pop. intros H. split_bind H e m1 He.
      pose proof He as He'. apply stack_is_empty_inv in He' as [-> _].
      destruct e; [unfold ret in H; by simplify_eq|].
      split_bind H s m1 H1. split_bind H n m2 H2. split_bind H u m3 H3.
      split_bind H n' m4 H4. split_bind H u1 m5 H5. split_bind H u2 m6 H6.
      split_bind H s' m7 H7. split_bind H u3 m8 H8. unfold ret in H. by simplify_eq.
    + intros [-> He]. unfold stack_pop. by rewrite (bind_eq _ _ _ _ _ He).
  - unfold stack_push. intros H.
    destruct (Z.eqb_spec data NULL); [unfold ret in H; simplify_eq; auto|].
    split_bind H ok m1 Hal. destruct ok; simpl in H.
    + split_bind H s1 m2 Hs1. split_bind H n1 m3 Hn1. split_bind H u m4 Hcp.
      split_bind H s2 m5 Hs2. split_bind H u2 m6 Hsz. unfold ret in H. by simplify_eq.
    + unfold ret in H. simplify_eq. apply stack_allocate_false in Hal as [? ?]. auto.
  - unfold stack_emplace. intros H.
    destruct (Z.eqb_spec data NULL); [unfold ret in H; simplify_eq; auto|].
    split_bind H ok m1 Hal. destruct ok; simpl in H.
    + split_bind H s1 m2 Hs1. split_bind H u m4 Hcp.
      split_bind H s2 m5 Hs2. split_bind H u2 m6 Hsz. unfold ret in H. by simplify_eq.
    + unfold ret in H. simplify_eq. apply stack_allocate_false in Hal as [? ?]. auto.
  - unfold stack_initialise, bind at 1. rewrite malloc_answer. intros H.
    destruct (granted (blocks m) (next_answer (oracle m))) as [a|] eqn:Ha.
    + apply granted_Some in Ha as (_ & Hva & _).
      destruct (Z.eqb_spec a NULL) as [->|Hna]; [unfold NULL in Hva; lia|].
      split_bind H u m1 H1. unfold ret in H. by simplify_eq.
    + simpl in H. unfold ret in H. by simplify_eq.
Qed.

Lemma failure_reasons_witness :
  blocks (after (stack_push 1 100) (fresh_stack [None])) = blocks (fresh_stack [None]) /\
  (100 = NULL \/
   granted (blocks (fresh_stack [None])) (next_answer (oracle (fresh_stack [None]))) = None).
Proof.
  destruct (failure_reasons (fresh_stack [None]) 1 100 0
              (after (stack_push 1 100) (fresh_stack [None]))) as (_ & Hpush & _).
  apply Hpush. vm_compute. reflexivity.
Defined.

End failures.

(** ** The test program *)

Section test_program.

Lemma granted_fresh h a :
  0 < a <= SIZE_MAX -> h !! a = None -> granted h (Some a) = Some a.
Proof.
  intros Hv Hf. unfold granted. rewrite Hf.
  apply valid_addr_spec in Hv. by rewrite Hv.
Qed.

Lemma stack_initialise_answer dsz m :
  stack_initialise dsz m =
  match granted (blocks m) (next_answer (oracle m)) with
  | None => Ok NULL (mkmem (blocks m) (tail (oracle m)))
  | Some a => Ok a (mkmem (<[a := BStack (Stack.mk 0 dsz NULL)]> (blocks m))
                          (tail (oracle m)))
  end.
Proof.
  unfold stack_initialise, bind at 1. rewrite malloc_answer.
  destruct (granted (blocks m) (next_answer (oracle m))) as [a|] eqn:Ha; [|done].
  apply granted_Some in Ha as (_ & Hva & _).
  destruct (Z.eqb_spec a NULL) as [->|Hna]; [unfold NULL in Hva; lia|].
  unfold bind, store_stack, fresh_bytes. simpl. rewrite lookup_insert_eq. simpl.
  unfold ret. do 2 f_equal. by heap_eq.
Qed.

Lemma stack_size_eq sp m s :
  blocks m !! sp = Some (BStack s) -> sp <> NULL ->
  stack_size sp m = Ok (if Stack.head s =? NULL then 0 else Stack.size s) m.
Proof.
  intros Hs Hsp. unfold stack_size.
  rewrite (bind_eq _ _ _ _ _ (stack_is_empty_eq _ _ _ Hs Hsp)).
  destruct (Stack.head s =? NULL); simpl; [done|].
  by rewrite (bind_eq _ _ _ _ _ (load_stack_eq _ _ _ Hs)).
Qed.

Lemma stack_print_empty sp m s :
  blocks m !! sp = Some (BStack s) -> sp <> NULL -> Stack.head s = NULL ->
  stack_print sp m = Ok (Stack.data_size s, Stack.size s, None) m.
Proof.
  intros Hs Hsp Hh. unfold stack_print.
  rewrite (bind_eq _ _ _ _ _ (stack_size_eq _ _ _ Hs Hsp)). rewrite Hh. simpl.
  by rewrite (bind_eq _ _ _ _ _ (load_stack_eq _ _ _ Hs)).
Qed.

Lemma stack_print_top sp m s d nx bs :
  blocks m !! sp = Some (BStack s) -> sp <> NULL ->
  Stack.head s <> NULL -> Stack.size s <> 0 ->
  blocks m !! Stack.head s = Some (BNode (StackNode.mk d nx)) ->
  bytes_at (blocks m) d = Some bs ->
  ITEM_SIZE <= Z.of_nat (length bs) ->
  stack_print sp m =
  Ok (Stack.data_size s, Stack.size s, Some (take (Z.to_nat ITEM_SIZE) bs)) m.
Proof.
  intros Hs Hsp Hh Hsz Hn Hd Hlen. unfold stack_print.
  rewrite (bind_eq _ _ _ _ _ (stack_size_eq _ _ _ Hs Hsp)).
  destruct (Z.eqb_spec (Stack.head s) NULL); [done|].
  destruct (Z.eqb_spec (Stack.size s) 0); [done|]. cbn [negb].
  rewrite (bind_eq _ _ _ _ _ (load_stack_eq _ _ _ Hs)).
  rewrite (bind_eq _ _ _ _ _ (stack_peek_eq _ _ _ _ Hsp Hs Hh Hn)).
  unfold bind, read_item. cbn [StackNode.data]. rewrite Hd.
  by destruct (Z.leb_spec ITEM_SIZE (Z.of_nat (length bs))); [|lia].
Qed.

Lemma stack_push_granted h sp s data v a d rest :
  heap_ok h ->
  h !! sp = Some (BStack s) ->
  bytes_at h data = Some v ->
  Stack.data_size s <= Z.of_nat (length v) ->
  0 < a <= SIZE_MAX -> h !! a = None ->
  0 < d <= SIZE_MAX -> h !! d = None -> a <> d ->
  stack_push sp data (mkmem h (Some a :: Some d :: rest)) =
  Ok true (mkmem (<[sp := BStack (Stack.mk (size_wrap (Stack.size s + 1))
                                           (Stack.data_size s) a)]>
                    (<[a := BNode (StackNode.mk d (Stack.head s))]>
                       (<[d := BBytes (take (Z.to_nat (Stack.data_size s)) v)]> h)))
                 rest).
Proof.
  intros Hok Hs Hv Hlen Hva Hfa Hvd Hfd Had.
  pose proof (heap_ok_null _ Hok) as Hnull.
  pose proof (bytes_at_live _ _ _ Hv) as [bv Hlive].
  assert (data <> NULL) as Hdata by congruence.
  assert (sp <> a) as Hspa by congruence.
  assert (sp <> d) as Hspd by congruence.
  assert (data <> a) as Hdaa by congruence.
  assert (data <> d) as Hdd by congruence.
  assert (data <> sp) as Hdsp.
  { intros ->. apply bytes_at_Some in Hv as [?|?]; congruence. }
  unfold stack_push. destruct (Z.eqb_spec data NULL); [done|].
  unfold bind at 1. rewrite (stack_allocate_answer _ _ s) by done.
  cbn [blocks oracle next_answer tail].
  rewrite (granted_fresh _ a) by done. cbv zeta.
  rewrite (granted_fresh _ d) by (by rewrite ?lookup_insert_ne).
  cbn [negb with_payload payload_ptr].
  erewrite bind_eq; [|apply load_stack_eq; simpl; apply lookup_insert_eq].
  erewrite bind_eq;
    [|apply load_node_eq; simpl; rewrite lookup_insert_ne by done; apply lookup_insert_eq].
  unfold bind at 1, memcpy. cbn [blocks oracle StackNode.data Stack.data_size].
  rewrite !(bytes_at_insert_ne _ _ _ data), Hv by done.
  rewrite lookup_insert_ne, lookup_insert_ne, lookup_insert_eq by done.
  unfold fresh_bytes. rewrite length_replicate, drop_replicate, Nat.sub_diag, app_nil_r.
  destruct (Z.leb_spec (Stack.data_size s) (Z.of_nat (length v))); [|lia].
  destruct (Z.leb_spec (Stack.data_size s) (Z.of_nat (Z.to_nat (Stack.data_size s))));
    [|lia].
  simpl.
  erewrite bind_eq;
    [|apply load_stack_eq; simpl; rewrite lookup_insert_ne by done; apply lookup_insert_eq].
  erewrite bind_eq;
    [|apply set_size_eq; simpl; rewrite lookup_insert_ne by done; apply lookup_insert_eq].
  unfold ret. simpl. do 2 f_equal. by heap_eq.
Qed.

Lemma stack_emplace_granted h sp s data a d rest :
  data <> NULL ->
  h !! sp = Some (BStack s) ->
  0 < a <= SIZE_MAX -> h !! a = None ->
  0 < d <= SIZE_MAX -> h !! d = None -> a <> d ->
  stack_emplace sp data (mkmem h (Some a :: Some d :: rest)) =
  Ok true (mkmem (<[sp := BStack (Stack.mk (size_wrap (Stack.size s + 1))
                                           (Stack.data_size s) a)]>
                    (<[a := BNode (StackNode.mk data (Stack.head s))]>
                       (<[d := fresh_bytes (Stack.data_size s)]> h)))
                 rest).
Proof.
  intros Hdata Hs Hva Hfa Hvd Hfd Had.
  assert (sp <> a) as Hspa by congruence.
  unfold stack_emplace. destruct (Z.eqb_spec data NULL); [done|].
  unfold bind at 1. rewrite (stack_allocate_answer _ _ s) by done.
  cbn [blocks oracle next_answer tail].
  rewrite (granted_fresh _ a) by done. cbv zeta.
  rewrite (granted_fresh _ d) by (by rewrite ?lookup_insert_ne).
  cbn [negb with_payload payload_ptr].
  erewrite bind_eq; [|apply load_stack_eq; simpl; apply lookup_insert_eq].
  unfold bind at 1, set_data.
  erewrite bind_eq;
    [|apply load_node_eq; simpl; rewrite lookup_insert_ne by done; apply lookup_insert_eq].
  unfold store_node. simpl.
  rewrite lookup_insert_ne, lookup_insert_eq by done.
  erewrite bind_eq;
    [|apply load_stack_eq; simpl; rewrite lookup_insert_ne by done; apply lookup_insert_eq].
  erewrite bind_eq;
    [|apply set_size_eq; simpl; rewrite lookup_insert_ne by done; apply lookup_insert_eq].
  unfold ret. simpl. do 2 f_equal. by heap_eq.
Qed.

Lemma stack_push_null_handle m data :
  blocks m !! NULL = None -> data <> NULL ->
  stack_push NULL data m = UB \/
  exists m', stack_push NULL data m = Ok false m' /\ blocks m' = blocks m.
Proof.
  intros Hnull Hdata.
  assert (stack_allocate NULL m =
          match granted (blocks m) (next_answer (oracle m)) with
          | None => Ok false (mkmem (blocks m) (tail (oracle m)))
          | Some _ => UB
          end) as Hal.
  { unfold stack_allocate, bind at 1. rewrite malloc_answer.
    destruct (granted (blocks m) (next_answer (oracle m))) as [a|] eqn:Ha; [|done].
    apply granted_Some in Ha as (_ & Hva & Hfa).
    destruct (Z.eqb_spec a NULL) as [->|Hna]; [unfold NULL in Hva; lia|].
    apply bind_UB. unfold load_stack. simpl.
    by rewrite lookup_insert_ne, Hnull. }
  unfold stack_push. destruct (Z.eqb_spec data NULL); [done|].
  destruct (granted (blocks m) (next_answer (oracle m))).
  - left. by apply bind_UB.
  - right. eexists. by rewrite (bind_eq _ _ _ _ _ Hal).
Qed.

(** X16. The macro [stack_print] is an observer of the stack: on a stack
    that holds [l] it shows the element size, the length of [l] and the
    first [sizeof(Item)] bytes of the top element, or no element for an
    empty stack, and leaves the memory as it is. It is undefined when the
    top element is shorter than an [Item]. *)
Theorem print_of_list m sp dsz l :
  stack_rep (blocks m) sp dsz l ->
  stack_print sp m =
  match l with
  | [] => Ok (dsz, 0, None) m
  | x :: _ =>
      if ITEM_SIZE <=? Z.of_nat (length (bytes_of x))
      then Ok (dsz, Z.of_nat (length l), Some (take (Z.to_nat ITEM_SIZE) (bytes_of x))) m
      else UB
  end.
Proof.
  intros Hrep.
  destruct (rep_record _ _ _ _ Hrep) as (s & Hs & Hdsz & Hsz & Hch).
  unfold stack_print. rewrite (bind_eq _ _ _ _ _ (rep_size _ _ _ _ Hrep)).
  destruct l as [|x l].
  - simpl. rewrite (bind_eq _ _ _ _ _ (load_stack_eq _ _ _ Hs)).
    unfold ret. by rewrite Hdsz, Hsz.
  - destruct (Z.eqb_spec (Z.of_nat (length (x :: l))) 0) as [E|_]; [simpl in E; lia|].
    cbn [negb].
    rewrite (bind_eq _ _ _ _ _ (load_stack_eq _ _ _ Hs)).
    rewrite (bind_eq _ _ _ _ _ (rep_peek _ _ _ _ _ Hrep)).
    destruct Hch as (_ & nx & _ & Hp & _).
    unfold bind, read_item. rewrite (bytes_at_bytes _ _ _ Hp).
    destruct (ITEM_SIZE <=? Z.of_nat (length (bytes_of x))); [|done].
    unfold ret. by rewrite Hdsz, Hsz.
Qed.

Lemma print_of_list_witness :
  stack_print 1 two_elements = Ok (4, 2, Some int_1000) two_elements.
Proof.
  apply (print_of_list two_elements 1 4 [(4, 5, int_1000); (2, 3, int_500)]).
  apply two_elements_rep.
Defined.

(** X17. [main] does not test what [stack_initialise] returns: when the
    allocation of the record is refused it goes on with a null handle,
    and whatever the allocator answers afterwards it ends in undefined
    behaviour, at the latest when the first [stack_print] reads
    [stack->data_size]. *)
Theorem main_without_record m :
  blocks m !! NULL = None ->
  granted (blocks m) (next_answer (oracle m)) = None ->
  main_body m = UB.
Proof.
  intros Hnull Hg. unfold main_body, bind at 1.
  rewrite stack_initialise_answer, Hg.
  unfold bind at 1. simpl. unfold bind at 1. simpl.
  set (m1 := mkmem (blocks m) (tail (oracle m))).
  assert (100 <> NULL) as H100 by done.
  assert (101 <> NULL) as H101 by done.
  assert (forall m2, blocks m2 = blocks m -> stack_print NULL m2 = UB) as Hprint.
  { intros m2 E. unfold stack_print, bind, load_stack. simpl. by rewrite E, Hnull. }
  unfold bind at 1.
  destruct (stack_push_null_handle m1 100 Hnull H100) as [->|(m2 & -> & E2)]; [done|].
  unfold bind at 1.
  assert (blocks m2 !! NULL = None) as Hnull2 by (rewrite E2; exact Hnull).
  destruct (stack_push_null_handle m2 101 Hnull2 H101) as [->|(m3 & -> & E3)]; [done|].
  unfold bind at 1. rewrite Hprint; [done|]. by rewrite E3, E2.
Qed.

Lemma main_without_record_witness : main_body (caller_mem [None; Some 1; Some 2]) = UB.
Proof.
  apply main_without_record; vm_compute; reflexivity.
Defined.

Lemma malloc_granted n h a rest :
  0 < a <= SIZE_MAX -> h !! a = None ->
  malloc n (mkmem h (Some a :: rest)) = Ok a (mkmem (<[a := fresh_bytes n]> h) rest).
Proof.
  intros Hv Hf. rewrite malloc_answer. cbn [blocks oracle next_answer tail].
  by rewrite granted_fresh.
Qed.

Lemma store_item_eq a v m old :
  blocks m !! a = Some (BBytes old) ->
  Z.of_nat (length old) = ITEM_SIZE -> Z.of_nat (length v) = ITEM_SIZE ->
  store_item a v m = Ok tt (mkmem (<[a := BBytes v]> (blocks m)) (oracle m)).
Proof.
  intros Ha Hold Hv. unfold store_item. rewrite Ha, Hold, Hv.
  by rewrite Z.eqb_refl.
Qed.

(** Looks a key up in a heap built from inserts. *)
Ltac lk :=
  cbn [blocks oracle Stack.head Stack.size Stack.data_size StackNode.data StackNode.next];
  repeat (rewrite lookup_insert_eq
          || rewrite lookup_insert_ne by done
          || rewrite lookup_delete_ne by done);
  done.

(** Reads the bytes at a key of a heap built from inserts. *)
Ltac bk :=
  cbn [blocks oracle Stack.head Stack.size Stack.data_size StackNode.data StackNode.next];
  repeat (rewrite bytes_at_insert_ne by done || rewrite bytes_at_delete_ne by done);
  done.

(** Projections of records the run has built. *)
Ltac tidy :=
  cbv beta;
  cbn [blocks oracle Stack.head Stack.size Stack.data_size StackNode.data StackNode.next].

(** Replaces the heap a run has reached by an equal one. *)
Ltac heap_is h' :=
  lazymatch goal with
  | |- bind _ _ (mkmem ?H _) = _ => replace H with h' by (by heap_eq)
  end.

(** X18. When the allocator grants every request of [main], the program
    shows an empty stack of size 0 at the start, then the sizes 2, 1, 0,
    1, 0 with the tops 1000, 500, none, 500, none, and returns. It never
    calls [stack_destroy]; at the end the record and every node are
    freed, and exactly one block is left over: the payload block that
    [stack_allocate] obtained for the emplaced element. *)
Theorem main_leaks_one_block m sp n1 d1 n2 d2 a n3 d3 rest :
  heap_ok (blocks m) ->
  bytes_at (blocks m) 100 = Some int_500 ->
  bytes_at (blocks m) 101 = Some int_1000 ->
  oracle m = Some sp :: Some n1 :: Some d1 :: Some n2 :: Some d2 ::
             Some a :: Some n3 :: Some d3 :: rest ->
  Forall (fun p => 0 < p <= SIZE_MAX /\ blocks m !! p = None)
         [sp; n1; d1; n2; d2; a; n3; d3] ->
  NoDup [sp; n1; d1; n2; d2] ->
  NoDup [sp; a; n3; d3] ->
  main_body m =
  Ok (true, true,
      [(4, 2, Some int_1000); (4, 1, Some int_500); (4, 0, None);
       (4, 1, Some int_500); (4, 0, None)])
     (mkmem (<[d3 := fresh_bytes ITEM_SIZE]> (blocks m)) rest).
Proof.
  intros Hok H100 H101 Ho Hfr Hnd1 Hnd2. destruct m as [h o]. simpl in *. subst o.
  pose proof (bytes_at_live _ _ _ H100) as [b100 Hl100].
  pose proof (bytes_at_live _ _ _ H101) as [b101 Hl101].
  rewrite !Forall_cons in Hfr.
  repeat match goal with
         | H : NoDup (_ :: _) |- _ => apply NoDup_cons in H as [? ?]
         end.
  repeat match goal with
         | H : _ ∉ _ :: _ |- _ => apply not_elem_of_cons in H as [? ?]
         end.
  destruct_and!.
  assert (sp <> NULL /\ n1 <> NULL /\ d1 <> NULL /\ n2 <> NULL /\ d2 <> NULL /\
          a <> NULL /\ n3 <> NULL /\ d3 <> NULL) by (unfold NULL; lia).
  assert (sp <> 100 /\ n1 <> 100 /\ d1 <> 100 /\ n2 <> 100 /\ d2 <> 100)
    by (repeat split; congruence).
  assert (sp <> 101 /\ n1 <> 101 /\ d1 <> 101 /\ n2 <> 101 /\ d2 <> 101)
    by (repeat split; congruence).
  destruct_and!.
  unfold main_body.
  (* stack_initialise, stack_is_empty, stack_size *)
  erewrite bind_eq;
    [|rewrite stack_initialise_answer; cbn [blocks oracle next_answer tail];
      rewrite granted_fresh by done; reflexivity].
  tidy.
  erewrite bind_eq; [|apply stack_is_empty_eq; [lk|done]]. tidy.
  erewrite bind_eq; [|apply stack_size_eq; [lk|done]]. tidy.
  (* the two pushes *)
  erewrite bind_eq;
    [|eapply (stack_push_granted _ sp _ 100 int_500 n1 d1);
      [by apply heap_ok_insert|lk|bk|by vm_compute|done|lk|done|lk|done]].
  tidy.
  erewrite bind_eq;
    [|eapply (stack_push_granted _ sp _ 101 int_1000 n2 d2);
      [by repeat apply heap_ok_insert|lk|bk|by vm_compute|done|lk|done|lk|done]].
  tidy.
  (* print, pop, print, pop, print *)
  erewrite bind_eq;
    [|eapply stack_print_top;
      [lk|done|by cbn|by vm_compute|lk|apply bytes_at_bytes; lk|by vm_compute]].
  tidy.
  erewrite bind_eq; [|eapply stack_pop_exact; [done|lk|by cbn|lk|lk|done|by cbn|by cbn|done]].
  tidy.
  heap_is (<[sp := BStack (Stack.mk 1 ITEM_SIZE n1)]>
             (<[n1 := BNode (StackNode.mk d1 NULL)]> (<[d1 := BBytes int_500]> h))).
  erewrite bind_eq;
    [|eapply stack_print_top;
      [lk|done|by cbn|by vm_compute|lk|apply bytes_at_bytes; lk|by vm_compute]].
  tidy.
  erewrite bind_eq; [|eapply stack_pop_exact; [done|lk|by cbn|lk|lk|done|by cbn|by cbn|done]].
  tidy.
  heap_is (<[sp := BStack (Stack.mk 0 ITEM_SIZE NULL)]> h).
  erewrite bind_eq; [|eapply stack_print_empty; [lk|done|by cbn]]. tidy.
  (* the emplaced element *)
  erewrite bind_eq; [|apply malloc_granted; [done|lk]]. tidy.
  erewrite bind_eq; [|eapply store_item_eq; [lk|by vm_compute|by vm_compute]]. tidy.
  erewrite bind_eq;
    [|eapply (stack_emplace_granted _ sp _ a n3 d3); [done|lk|done|lk|done|lk|done]].
  tidy.
  erewrite bind_eq;
    [|eapply stack_print_top;
      [lk|done|by cbn|by vm_compute|lk|apply bytes_at_bytes; lk|by vm_compute]].
  tidy.
  erewrite bind_eq; [|eapply stack_pop_exact; [done|lk|by cbn|lk|lk|done|by cbn|by cbn|done]].
  tidy.
  heap_is (<[sp := BStack (Stack.mk 0 ITEM_SIZE NULL)]> (<[d3 := fresh_bytes ITEM_SIZE]> h)).
  erewrite bind_eq; [|eapply stack_print_empty; [lk|done|by cbn]]. tidy.
  (* free(stack) *)
  erewrite bind_eq; [|eapply free_eq; [lk|done|done]]. tidy.
  unfold ret. cbn [blocks oracle].
  replace (delete sp (<[sp:=BStack (Stack.mk 0 ITEM_SIZE NULL)]>
                        (<[d3:=fresh_bytes ITEM_SIZE]> h)))
    with (<[d3:=fresh_bytes ITEM_SIZE]> h) by (by heap_eq).
  reflexivity.
Qed.

Lemma main_leaks_one_block_witness :
  main_body (caller_mem [Some 1; Some 2; Some 3; Some 4; Some 5; Some 2; Some 3; Some 4]) =
  Ok (true, true,
      [(4, 2, Some int_1000); (4, 1, Some int_500); (4, 0, None);
       (4, 1, Some int_500); (4, 0, None)])
     (mkmem (<[4 := fresh_bytes ITEM_SIZE]> caller_heap) []).
Proof.
  apply (main_leaks_one_block
           (caller_mem [Some 1; Some 2; Some 3; Some 4; Some 5; Some 2; Some 3; Some 4])
           1 2 3 4 5 2 3 4 []).
  - apply caller_heap_ok.
  - vm_compute. reflexivity.
  - vm_compute. reflexivity.
  - reflexivity.
  - repeat (apply Forall_cons; split; [split; [vm_compute; done|vm_compute; reflexivity]|]).
    apply Forall_nil_2.
  - apply (bool_decide_unpack _). vm_compute. exact I.
  - apply (bool_decide_unpack _). vm_compute. exact I.
Defined.

End test_program.

(** ** Pointers the stack shares with its caller *)

Section aliasing.

Lemma stack_pop_dangling_payload sp m s d nx :
  sp <> NULL ->
  blocks m !! sp = Some (BStack s) ->
  Stack.head s <> NULL ->
  blocks m !! Stack.head s = Some (BNode (StackNode.mk d nx)) ->
  d <> NULL -> blocks m !! d = None ->
  stack_pop sp m = UB.
Proof.
  intros Hsp Hs Hh Hn Hdn Hd.
  assert (sp <> Stack.head s) as Hne by congruence.
  assert (sp <> d) as Hspd by congruence.
  unfold stack_pop.
  rewrite (bind_eq _ _ _ _ _ (stack_is_empty_eq _ _ _ Hs Hsp)).
  destruct (Z.eqb_spec (Stack.head s) NULL); [done|].
  rewrite (bind_eq _ _ _ _ _ (load_stack_eq _ _ _ Hs)). cbv zeta.
  rewrite (bind_eq _ _ _ _ _ (load_node_eq _ _ _ Hn)).
  rewrite (bind_eq _ _ _ _ _ (set_head_eq _ _ _ _ Hs)).
  erewrite bind_eq;
    [|apply load_node_eq; simpl; rewrite lookup_insert_ne by done; exact Hn].
  apply bind_UB. unfold free. cbn [StackNode.data blocks].
  destruct (Z.eqb_spec d NULL); [done|].
  by rewrite lookup_insert_ne, Hd.
Qed.

(** X19. [stack_emplace] stores the caller's pointer without copying, and
    [stack_pop] frees what the node holds: a live buffer emplaced twice is
    freed by the first pop, and the pop after it is undefined, a second
    [free] of the same buffer. *)
Theorem emplace_twice_double_free m sp data bs m1 m2 m3 :
  blocks m !! data = Some (BBytes bs) ->
  stack_emplace sp data m = Ok true m1 ->
  stack_emplace sp data m1 = Ok true m2 ->
  stack_pop sp m2 = Ok true m3 ->
  stack_pop sp m3 = UB.
Proof.
  intros Hd H1 H2 H3.
  assert (sp <> NULL) as Hsp.
  { intros ->. by vm_compute in H3. }
  apply stack_emplace_inv in H1
    as [[? _]|(_ & Hdn & s & a1 & d1 & h1 & Hs & Hva1 & Hfa1 & Hp1 & Hb1)]; [done|].
  apply stack_emplace_inv in H2
    as [[? _]|(_ & _ & s1 & a2 & d2 & h2 & Hs1 & Hva2 & Hfa2 & Hp2 & Hb2)]; [done|].
  assert (sp <> data) as Hspd by congruence.
  assert (sp <> a1) as Hspa1 by congruence.
  assert (data <> a1) as Hda1 by congruence.
  assert (a1 <> NULL) as Ha1 by (unfold NULL; lia).
  assert (a2 <> NULL) as Ha2 by (unfold NULL; lia).
  assert (h1 !! data = Some (BBytes bs)) as Hd1.
  { destruct Hp1 as [[_ ->]|(_ & _ & Hfd & ->)]; [done|].
    rewrite lookup_insert_ne; [done|congruence]. }
  assert (blocks m1 !! data = Some (BBytes bs)) as Hdm1.
  { by rewrite Hb1, !lookup_insert_ne. }
  assert (blocks m1 !! a1 = Some (BNode (StackNode.mk data (Stack.head s)))) as Hn1.
  { by rewrite Hb1, lookup_insert_ne, lookup_insert_eq. }
  rewrite Hb1, lookup_insert_eq in Hs1. injection Hs1 as <-. cbn [Stack.head] in Hb2.
  assert (a2 <> sp) as Ha2sp.
  { intros ->. by rewrite Hb1, lookup_insert_eq in Hfa2. }
  assert (a2 <> a1) as Ha21 by congruence.
  assert (a2 <> data) as Ha2d by congruence.
  assert (h2 !! data = Some (BBytes bs) /\
          h2 !! a1 = Some (BNode (StackNode.mk data (Stack.head s)))) as [Hd2 Hn2].
  { destruct Hp2 as [[_ ->]|(_ & _ & Hfd & ->)]; [done|].
    split; (rewrite lookup_insert_ne; [done|congruence]). }
  apply stack_pop_inv in H3 as [[? _]|(_ & s2 & n & Hs2 & Hh2 & Hnn & Hb3)]; [done|].
  rewrite Hb2, lookup_insert_eq in Hs2. injection Hs2 as <-.
  cbn [Stack.head Stack.size Stack.data_size] in *.
  rewrite Hb2, lookup_insert_ne, lookup_insert_eq in Hnn by done. injection Hnn as <-.
  cbn [StackNode.data StackNode.next] in Hb3.
  unfold release in Hb3.
  destruct (Z.eqb_spec data NULL); [done|]. destruct (Z.eqb_spec a2 NULL); [done|].
  eapply (stack_pop_dangling_payload sp m3 _ data (Stack.head s)); [done| | | |done|].
  - rewrite Hb3. apply lookup_insert_eq.
  - done.
  - cbn [Stack.head]. rewrite Hb3, lookup_insert_ne, !lookup_delete_ne, Hb2 by done.
    by rewrite !lookup_insert_ne.
  - rewrite Hb3, lookup_insert_ne, lookup_delete_ne by done.
    apply lookup_delete_eq.
Qed.

Lemma emplace_twice_double_free_witness :
  stack_pop 1
    (after (stack_pop 1)
       (after (stack_emplace 1 102)
          (after (stack_emplace 1 102) (fresh_stack [Some 2; Some 3; Some 4; Some 5])))) = UB.
Proof.
  apply (emplace_twice_double_free
           (fresh_stack [Some 2; Some 3; Some 4; Some 5]) 1 102 int_500
           (after (stack_emplace 1 102) (fresh_stack [Some 2; Some 3; Some 4; Some 5]))
           (after (stack_emplace 1 102)
              (after (stack_emplace 1 102) (fresh_stack [Some 2; Some 3; Some 4; Some 5]))));
    vm_compute; reflexivity.
Defined.

(** X20. The pointer [stack_peek] returns designates the payload inside
    the stack, not a copy: on a stack that holds at least one element,
    in payload blocks obtained from [malloc], the pop that follows frees
    it, and reading an [Item] through the
    peeked pointer afterwards is undefined. *)
Theorem peeked_pointer_dies_with_pop m sp dsz x l :
  stack_rep (blocks m) sp dsz (x :: l) ->
  exists m', stack_peek sp m = Ok (payload_of x) m /\
             stack_pop sp m = Ok true m' /\
             blocks m' !! payload_of x = None /\
             read_item (payload_of x) m' = UB.
Proof.
  intros Hrep.
  destruct (rep_pop _ _ _ _ _ Hrep) as (m' & Hpop & _ & _).
  exists m'. split; [by apply (rep_peek _ _ dsz _ l)|]. split; [done|].
  pose proof (rep_sp_not_null _ _ _ _ Hrep) as Hsp.
  destruct Hrep as (Hok & _ & _ & s & Hs & _ & _ & Hh & nx & Hn & Hp & _).
  pose proof (heap_ok_lookup _ _ _ Hok Hn) as Hva.
  pose proof (heap_ok_lookup _ _ _ Hok Hp) as Hvd.
  apply stack_pop_inv in Hpop as [[? _]|(_ & s' & n & Hs' & _ & Hn' & Hb)]; [done|].
  rewrite Hs in Hs'. injection Hs' as <-.
  rewrite Hh, Hn in Hn'. injection Hn' as <-.
  cbn [StackNode.data StackNode.next] in Hb. rewrite Hh in Hb.
  unfold release in Hb.
  destruct (Z.eqb_spec (payload_of x) NULL) as [E|_]; [unfold NULL in E; lia|].
  destruct (Z.eqb_spec (node_of x) NULL) as [E|_]; [unfold NULL in E; lia|].
  assert (blocks m' !! payload_of x = None) as Hgone.
  { rewrite Hb, lookup_insert_ne by congruence.
    rewrite lookup_delete_ne by congruence. apply lookup_delete_eq. }
  split; [done|]. unfold read_item, bytes_at. by rewrite Hgone.
Qed.

Lemma peeked_pointer_dies_with_pop_witness :
  exists m', stack_peek 1 two_elements = Ok 5 two_elements /\
             stack_pop 1 two_elements = Ok true m' /\
             blocks m' !! 5 = None /\
             read_item 5 m' = UB.
Proof.
  apply (peeked_pointer_dies_with_pop two_elements 1 4 (4, 5, int_1000) [(2, 3, int_500)]).
  apply two_elements_rep.
Defined.

End aliasing.
